(** * AcaRead front end: scoring, generation polling, upload and session list

    A shallow embedding of the client logic of the AcaRead repository
    (Next.js / React, TypeScript) and of the generation-job rule of its
    session API, with the properties of the specification stated and proved
    over it.

    Conventions of the embedding:
    - a JavaScript string is a [string] whose characters are read as code
      units below 256 (the Latin-1 range), on which [trim] and
      [toLowerCase] are written out exactly;
    - a value of TypeScript type [any] (the answer key returned by the
      server) is a [JsVal], a JSON value plus [undefined];
    - an expression that may raise a [TypeError] evaluates to a
      [Completion];
    - [Record<string, string>] is a [gmap string string];
    - React state is passed explicitly: a handler is a function from the
      state it closes over to the state it sets. *)

From Stdlib Require Import ZArith NArith Ascii String List Bool Lia Sorted.
From stdpp Require Import base option list strings pretty gmap.

Open Scope string_scope.
Set Warnings "-register-all".

(* ===================================================================== *)
(** * JavaScript strings *)
(* ===================================================================== *)

Module JsString.

Definition code (c : ascii) : N := N_of_ascii c.

(** White space and line terminators removed by [String.prototype.trim],
    restricted to code units below 256: TAB, LF, VT, FF, CR, SP, NBSP. *)
Definition is_space (c : ascii) : bool :=
  let n := code c in
  (N.leb 9 n && N.leb n 13) || N.eqb n 32 || N.eqb n 160.

(** Code units with a lower-case mapping: A-Z, and the Latin-1 capitals
    U+00C0..U+00DE except the multiplication sign U+00D7. *)
Definition is_upper (c : ascii) : bool :=
  let n := code c in
  (N.leb 65 n && N.leb n 90)
  || (N.leb 192 n && N.leb n 214)
  || (N.leb 216 n && N.leb n 222).

Definition lower_char (c : ascii) : ascii :=
  if is_upper c then ascii_of_N (code c + 32) else c.

Fixpoint toLowerCase (s : string) : string :=
  match s with
  | EmptyString => EmptyString
  | String c r => String (lower_char c) (toLowerCase r)
  end.

Fixpoint trimStart (s : string) : string :=
  match s with
  | EmptyString => EmptyString
  | String c r => if is_space c then trimStart r else s
  end.

Fixpoint trimEnd (s : string) : string :=
  match s with
  | EmptyString => EmptyString
  | String c r =>
      match trimEnd r with
      | EmptyString => if is_space c then EmptyString else String c EmptyString
      | r' => String c r'
      end
  end.

Definition trim (s : string) : string := trimEnd (trimStart s).

(** [s.startsWith(p)] *)
Fixpoint startsWith (p s : string) : bool :=
  match p, s with
  | EmptyString, _ => true
  | String a p', String b s' => if Ascii.eqb a b then startsWith p' s' else false
  | String _ _, EmptyString => false
  end.

(** [s.includes(p)] *)
Fixpoint includes (s p : string) : bool :=
  startsWith p s ||
  match s with
  | EmptyString => false
  | String _ r => includes r p
  end.

(** A string in a boolean position: only the empty string is falsy. *)
Definition truthy (s : string) : bool :=
  match s with EmptyString => false | _ => true end.

(** [s || d] for strings. *)
Definition or_else (s d : string) : string := if truthy s then s else d.

Definition eqb (a b : string) : bool := bool_decide (a = b).

End JsString.

(* ===================================================================== *)
(** * JavaScript values of type [any] *)
(* ===================================================================== *)

Module Js.

Inductive JsVal : Type :=
| JUndef
| JNull
| JBool (b : bool)
| JNum (n : Z)
| JStr (s : string)
| JArr (items : list JsVal)
| JObj (props : list (string * JsVal)).

Inductive Completion (A : Type) : Type :=
| Normal (a : A)
| Throw.
Arguments Normal {A} a.
Arguments Throw {A}.

Definition bind {A B} (c : Completion A) (k : A -> Completion B) : Completion B :=
  match c with
  | Normal a => k a
  | Throw => Throw
  end.

Definition nullish (v : JsVal) : bool :=
  match v with
  | JUndef | JNull => true
  | _ => false
  end.

(** [ToBoolean] *)
Definition truthy (v : JsVal) : bool :=
  match v with
  | JUndef | JNull => false
  | JBool b => b
  | JNum n => negb (Z.eqb n 0)
  | JStr s => JsString.truthy s
  | JArr _ | JObj _ => true
  end.

(** Own property of an object literal; the property table of a parsed
    JSON object has one entry per key. *)
Fixpoint lookup_prop (k : string) (props : list (string * JsVal)) : JsVal :=
  match props with
  | [] => JUndef
  | (k', v) :: rest => if JsString.eqb k k' then v else lookup_prop k rest
  end.

(** [v.name] for a name that is not an array index.  Reading a property
    of [undefined] or [null] throws; primitives, arrays and strings have
    no own property of that name except [length]. *)
Definition get_named (v : JsVal) (name : string) : Completion JsVal :=
  match v with
  | JUndef | JNull => Throw
  | JObj props => Normal (lookup_prop name props)
  | JArr items =>
      Normal (if JsString.eqb name "length" then JNum (Z.of_nat (length items)) else JUndef)
  | JStr s =>
      Normal (if JsString.eqb name "length" then JNum (Z.of_nat (String.length s)) else JUndef)
  | JBool _ | JNum _ => Normal JUndef
  end.

Definition char_at (s : string) (i : nat) : JsVal :=
  match String.get i s with
  | Some c => JStr (String c EmptyString)
  | None => JUndef
  end.

(** [v[i]] for a non-negative integer [i]. *)
Definition get_index (v : JsVal) (i : nat) : Completion JsVal :=
  match v with
  | JUndef | JNull => Throw
  | JArr items => Normal (nth i items JUndef)
  | JObj props => Normal (lookup_prop (pretty i) props)
  | JStr s => Normal (char_at s i)
  | JBool _ | JNum _ => Normal JUndef
  end.

(** [v.trim()]: only strings have the method; calling [undefined] throws. *)
Definition call_trim (v : JsVal) : Completion string :=
  match v with
  | JStr s => Normal (JsString.trim s)
  | _ => Throw
  end.

(** [v.toLowerCase()] *)
Definition call_toLowerCase (v : JsVal) : Completion string :=
  match v with
  | JStr s => Normal (JsString.toLowerCase s)
  | _ => Throw
  end.

(** [a === b] with a string on the left. *)
Definition str_strict_eq (a : string) (b : JsVal) : bool :=
  match b with
  | JStr s => JsString.eqb a s
  | _ => false
  end.

End Js.

Import Js.

Notation "'let*' x ':=' c 'in' k" := (Js.bind c (fun x => k))
  (at level 10, x name, c at level 100, k at level 200).

(* ===================================================================== *)
(** * Exam data (lib/types as used by the components) *)
(* ===================================================================== *)

(** Modelled from the spec: the declarations of [lib/types] are not among
    the sources.  A question always includes its global question number;
    the field name is the one the components read. *)
Record Question := mkQuestion {
  question_number : N
}.

(** Modelled from the spec: a task has a type identifier, an instruction
    text and an ordered list of questions; [task_key] and [instruction]
    are read through [?.] by the components, so they may be absent. *)
Record Task := mkTask {
  task_type : string;
  task_key : option string;
  instruction : option string;
  questions : list Question
}.

(** Modelled from the spec: an exam owns an ordered list of tasks. *)
Record Exam := mkExam {
  tasks : list Task
}.

(** The template literal [`q-${qNum}`]. *)
Definition qKey (q : Question) : string := "q-" +:+ pretty (question_number q).

(** [answers[qKey] || ""] *)
Definition currentAnswerOf (answers : gmap string string) (q : Question) : string :=
  JsString.or_else (default "" (answers !! qKey q)) "".

(* ===================================================================== *)
(** * exam/ExamClient.tsx *)
(* ===================================================================== *)

Module ExamClient.

(** The object literal returned by [calculateScore]: the early return
    carries [score] and [total], the normal return [correct] and
    [total]. *)
Record Score := mkScore {
  score : option nat;
  correct : option nat;
  total : nat
}.

(** [userAnswers[`q-${qNum}`]?.trim().toLowerCase()]; [None] is
    [undefined]. *)
Definition userAns (userAnswers : gmap string string) (q : Question) : option string :=
  match userAnswers !! qKey q with
  | None => None
  | Some s => Some (JsString.toLowerCase (JsString.trim s))
  end.

(** [answers.tasks[tIdx]?.answers[qIdx]?.answer?.trim().toLowerCase()] *)
Definition correctAns (answers : JsVal) (tIdx qIdx : nat) : Completion (option string) :=
  let* ts := get_named answers "tasks" in
  let* t := get_index ts tIdx in
  if nullish t then Normal None else
  let* az := get_named t "answers" in
  let* e := get_index az qIdx in
  if nullish e then Normal None else
  let* a := get_named e "answer" in
  if nullish a then Normal None else
  let* tr := call_trim a in
  Normal (Some (JsString.toLowerCase tr)).

(** [userAns && userAns === correctAns] *)
Definition isHit (u c : option string) : bool :=
  match u with
  | None => false
  | Some us =>
      JsString.truthy us &&
      match c with
      | Some cs => JsString.eqb us cs
      | None => false
      end
  end.

(** The body of the inner [forEach], on the counters [(correct, total)]. *)
Definition scoreQuestion (answers : JsVal) (userAnswers : gmap string string)
    (tIdx qIdx : nat) (q : Question) (acc : nat * nat) : Completion (nat * nat) :=
  let total' := S (snd acc) in
  let u := userAns userAnswers q in
  let* c := correctAns answers tIdx qIdx in
  Normal (if isHit u c then S (fst acc) else fst acc, total').

Fixpoint scoreQuestions (answers : JsVal) (userAnswers : gmap string string)
    (tIdx qIdx : nat) (qs : list Question) (acc : nat * nat) : Completion (nat * nat) :=
  match qs with
  | [] => Normal acc
  | q :: rest =>
      let* acc' := scoreQuestion answers userAnswers tIdx qIdx q acc in
      scoreQuestions answers userAnswers tIdx (S qIdx) rest acc'
  end.

Fixpoint scoreTasks (answers : JsVal) (userAnswers : gmap string string)
    (tIdx : nat) (ts : list Task) (acc : nat * nat) : Completion (nat * nat) :=
  match ts with
  | [] => Normal acc
  | t :: rest =>
      let* acc' := scoreQuestions answers userAnswers tIdx 0 (questions t) acc in
      scoreTasks answers userAnswers (S tIdx) rest acc'
  end.

Definition calculateScore (exam : option Exam) (answers : JsVal)
    (userAnswers : gmap string string) : Completion Score :=
  if negb (truthy answers) then Normal (mkScore (Some 0) None 0) else
  let* ts := get_named answers "tasks" in
  if negb (truthy ts) then Normal (mkScore (Some 0) None 0) else
  let* acc := (match exam with
               | None => Normal (0, 0)
               | Some ex => scoreTasks answers userAnswers 0 (tasks ex) (0, 0)
               end) in
  Normal (mkScore None (Some (fst acc)) (snd acc)).

(** ** The answer key as the server types it

    [{ tasks: [ { answers: [ { answer, explanation } ] } ] }], the shape
    [calculateScore] and the task components read, where any array entry
    may be [null] and any field may be absent. *)
Record AnswerEntry := mkAnswerEntry {
  answer : option string;
  explanation : option string
}.

Abbreviation TaskKey := (list (option AnswerEntry)).
Abbreviation AnswerKey := (list (option TaskKey)).

Definition field_js (name : string) (v : option string) : list (string * JsVal) :=
  match v with
  | Some s => [(name, JStr s)]
  | None => []
  end.

Definition entry_js (e : option AnswerEntry) : JsVal :=
  match e with
  | None => JNull
  | Some e => JObj (field_js "answer" (answer e) ++ field_js "explanation" (explanation e))
  end.

Definition task_js (t : option TaskKey) : JsVal :=
  match t with
  | None => JNull
  | Some es => JObj [("answers", JArr (map entry_js es))]
  end.

Definition key_js (k : AnswerKey) : JsVal :=
  JObj [("tasks", JArr (map task_js k))].

(** The [answers] state: [null] until the key has been fetched. *)
Definition answers_js (k : option AnswerKey) : JsVal :=
  match k with
  | None => JNull
  | Some k => key_js k
  end.

(** The stored key entry of question [qIdx] of task [tIdx]. *)
Definition key_answer (k : AnswerKey) (tIdx qIdx : nat) : option string :=
  match k !! tIdx with
  | Some (Some es) =>
      match es !! qIdx with
      | Some (Some e) => answer e
      | _ => None
      end
  | _ => None
  end.

(** Trimmed and lower-cased, as [calculateScore] compares. *)
Definition normalize (s : string) : string := JsString.toLowerCase (JsString.trim s).

Definition num_questions (ex : Exam) : nat :=
  list_sum (map (fun t => length (questions t)) (tasks ex)).

(** A question counts as answered when the user's entry is present and
    not blank. *)
Definition answered (userAnswers : gmap string string) (q : Question) : bool :=
  match userAnswers !! qKey q with
  | Some s => JsString.truthy (JsString.trim s)
  | None => false
  end.

Definition num_answered (userAnswers : gmap string string) (ex : Exam) : nat :=
  list_sum (map (fun t => length (filter (fun q => answered userAnswers q = true) (questions t)))
                (tasks ex)).

(** Every question has a submitted answer that equals its stored key
    entry once both are trimmed and lower-cased. *)
Definition allMatch (ex : Exam) (k : AnswerKey) (userAnswers : gmap string string) : Prop :=
  forall tIdx task qIdx q,
    tasks ex !! tIdx = Some task ->
    questions task !! qIdx = Some q ->
    exists u a,
      userAnswers !! qKey q = Some u /\
      key_answer k tIdx qIdx = Some a /\
      normalize u = normalize a.

(** No question has been left blank. *)
Definition noneBlank (ex : Exam) (userAnswers : gmap string string) : Prop :=
  forall tIdx task qIdx q,
    tasks ex !! tIdx = Some task ->
    questions task !! qIdx = Some q ->
    exists u, userAnswers !! qKey q = Some u /\ JsString.trim u <> "".

(** Whether question [qIdx] of task [tIdx] is counted, read off the typed
    key. *)
Definition hit (userAnswers : gmap string string) (k : AnswerKey)
    (tIdx qIdx : nat) (q : Question) : bool :=
  isHit (userAns userAnswers q) (normalize <$> key_answer k tIdx qIdx).

Fixpoint hitsQuestions (userAnswers : gmap string string) (k : AnswerKey)
    (tIdx qIdx : nat) (qs : list Question) : nat :=
  match qs with
  | [] => 0
  | q :: rest =>
      (if hit userAnswers k tIdx qIdx q then 1 else 0)
      + hitsQuestions userAnswers k tIdx (S qIdx) rest
  end.

Fixpoint hitsTasks (userAnswers : gmap string string) (k : AnswerKey)
    (tIdx : nat) (ts : list Task) : nat :=
  match ts with
  | [] => 0
  | t :: rest =>
      hitsQuestions userAnswers k tIdx 0 (questions t)
      + hitsTasks userAnswers k (S tIdx) rest
  end.

End ExamClient.


(* ===================================================================== *)
(** * create/page.tsx *)
(* ===================================================================== *)

Module CreateExam.

Local Open Scope Z_scope.

(** ** Exam configuration *)

Record ExamConfigState := mkExamConfig {
  passageType : Z;
  totalQuestions : Z;
  numQuestionTypes : Z
}.

(** [useState({ passageType: 1, totalQuestions: 14, numQuestionTypes: 3 })] *)
Definition initialExamConfig : ExamConfigState := mkExamConfig 1 14 3.

(** [Partial<typeof examConfig>] *)
Record ConfigPatch := mkPatch {
  patchPassageType : option Z;
  patchTotalQuestions : option Z;
  patchNumQuestionTypes : option Z
}.

(** [setExamConfig({ ...examConfig, ...config })] *)
Definition handleConfigChange (examConfig : ExamConfigState) (config : ConfigPatch)
    : ExamConfigState :=
  mkExamConfig
    (default (passageType examConfig) (patchPassageType config))
    (default (totalQuestions examConfig) (patchTotalQuestions config))
    (default (numQuestionTypes examConfig) (patchNumQuestionTypes config)).

(** The mount effect of the [ExamConfig] component: one [onChange] call for
    each field that is falsy. *)
Definition mountPatches (config : ExamConfigState) : list ConfigPatch :=
  (if Z.eqb (passageType config) 0 then [mkPatch (Some 1) None None] else [])
  ++ (if Z.eqb (totalQuestions config) 0 then [mkPatch None (Some 14) None] else [])
  ++ (if Z.eqb (numQuestionTypes config) 0 then [mkPatch None None (Some 3)] else []).

(** Every [onChange] of the effect closes over the same [examConfig]; the
    state set last is the one that stays. *)
Definition afterMount (examConfig : ExamConfigState) : ExamConfigState :=
  match last (mountPatches examConfig) with
  | Some p => handleConfigChange examConfig p
  | None => examConfig
  end.

(** The user's configuration actions, each on the state of its render. *)
Definition reconfigure (examConfig : ExamConfigState) (changes : list ConfigPatch)
    : ExamConfigState :=
  fold_left handleConfigChange changes examConfig.

(** The body sent by [api.generateIelts]. *)
Record GenerateRequest := mkRequest {
  passage_type : Z;
  total_questions : Z;
  num_question_types : Z
}.

Inductive UploadMethod := MethodFile | MethodUrl.

Record Source := mkSource {
  file : option string;
  fileUrl : string;
  uploadMethod : UploadMethod
}.

(** [handleProcess] up to the call of [api.generateIelts]: nothing is sent
    without a file or URL, or when [api.createSession] fails; otherwise the
    session id and the request body. *)
Definition handleProcess (src : Source) (examConfig : ExamConfigState)
    (createSession : option string) : option (string * GenerateRequest) :=
  if negb (bool_decide (is_Some (file src))) && negb (JsString.truthy (fileUrl src))
  then None
  else
    match createSession with
    | None => None
    | Some session_id =>
        Some (session_id,
              mkRequest (passageType examConfig) (totalQuestions examConfig)
                        (numQuestionTypes examConfig))
    end.

(** ** Status polling *)

(** Modelled from the spec: the status poll response of the session API
    carries [status], [progress] and [message]; [lib/api] is not among the
    sources.  [pollStatus] guards both [progress] and [message] with [||],
    so either may be absent; progress is the whole percentage the server
    reports. *)
Record ExamStatus := mkStatus {
  status : string;
  st_progress : option Z;
  message : option string
}.

(** The state [pollStatus] reads and writes: the React state of the page,
    the closure variable [pollInterval] ([true] once it holds a timer),
    whether that timer still fires, and the redirects scheduled. *)
Record PollState := mkPoll {
  isProcessing : bool;
  currentStep : Z;
  progress : Z;
  statusMessage : string;
  error : option string;
  pollInterval : bool;
  intervalRunning : bool;
  redirects : nat
}.

(** [if (pollInterval) clearInterval(pollInterval)] *)
Definition clearIfSet (st : PollState) : bool :=
  if pollInterval st then false else intervalRunning st.

(** [status.progress || 0] *)
Definition progressOr0 (s : ExamStatus) : Z := default 0 (st_progress s).

(** [`${status.progress}`] *)
Definition showProgress (s : ExamStatus) : string :=
  match st_progress s with
  | Some p => pretty p
  | None => "undefined"
  end.

(** The [switch] that maps a status to a step and a message. *)
Definition stepAndMessage (s : ExamStatus) : Z * string :=
  if JsString.eqb (status s) "queued" then (2, "Queued for processing...")
  else if JsString.eqb (status s) "preprocessing" then (2, "Preprocessing content...")
  else if JsString.eqb (status s) "generating_passage" then (2, "Generating reading passage...")
  else if JsString.eqb (status s) "planning_strategy" then (3, "Planning question strategy...")
  else if JsString.eqb (status s) "generating_questions"
       then (4, "Generating questions... (" +:+ showProgress s +:+ "%)")
  else if JsString.eqb (status s) "finalizing" then (5, "Finalizing exam...")
  else (2, "Processing...").

(** One run of [pollStatus]; [None] is a rejected [api.getExamStatus], which
    the [catch] logs and drops. *)
Definition pollStatus (st : PollState) (r : option ExamStatus) : PollState :=
  match r with
  | None => st
  | Some s =>
      if JsString.eqb (status s) "failed" then
        mkPoll false (currentStep st) (progress st) (statusMessage st)
               (Some (JsString.or_else (default "" (message s)) "Generation failed"))
               (pollInterval st) (clearIfSet st) (redirects st)
      else if JsString.eqb (status s) "completed" then
        mkPoll (isProcessing st) 5 100 "Exam generated successfully! Redirecting..."
               (error st) (pollInterval st) (clearIfSet st) (S (redirects st))
      else
        let sm := stepAndMessage s in
        mkPoll (isProcessing st) (fst sm) (Z.max (progress st) (progressOr0 s)) (snd sm)
               (error st) (pollInterval st) (intervalRunning st) (redirects st)
  end.

(** The page state when [handleProcess] reaches its first poll. *)
Definition pollingStart : PollState :=
  mkPoll true 2 20 "Starting exam generation..." None false false 0%nat.

(** [pollInterval = setInterval(pollStatus, 2000)] *)
Definition setInterval (st : PollState) : PollState :=
  mkPoll (isProcessing st) (currentStep st) (progress st) (statusMessage st)
         (error st) true true (redirects st).

(** The polls fired by the timer: one per response as long as the timer has
    not been cleared, each response being taken to arrive before the next
    firing (requests that overlap are the subject of [PollFlow]).  The
    result lists the state after each poll. *)
Fixpoint ticks (st : PollState) (rs : list (option ExamStatus)) : list PollState :=
  match rs with
  | [] => []
  | r :: rest =>
      if intervalRunning st
      then let st' := pollStatus st r in st' :: ticks st' rest
      else []
  end.

(** [await pollStatus(); pollInterval = setInterval(pollStatus, 2000)]: the
    first poll runs before the timer exists. *)
Definition polling (st : PollState) (rs : list (option ExamStatus)) : list PollState :=
  match rs with
  | [] => []
  | r :: rest => let st' := pollStatus st r in st' :: ticks (setInterval st') rest
  end.

(** The progress shown before the first poll and after each poll. *)
Definition shownProgress (st : PollState) (rs : list (option ExamStatus)) : list Z :=
  progress st :: map progress (polling st rs).

Definition terminalStatus (s : ExamStatus) : bool :=
  JsString.eqb (status s) "failed" || JsString.eqb (status s) "completed".

Definition reportedAtMost (bound : Z) (r : option ExamStatus) : Prop :=
  match r with
  | Some s => progressOr0 s <= bound
  | None => True
  end%Z.

End CreateExam.

(* ===================================================================== *)
(** * exam/components/questions *)
(* ===================================================================== *)

Module Tasks.

(** [handleAnswerChange]: [setUserAnswers(prev => ({ ...prev, [qId]: value }))] *)
Definition setAnswer (answers : gmap string string) (qId value : string)
    : gmap string string :=
  <[qId := value]> answers.

(** [correctAnswers?.[index]?.answer], with [correctAnswers] the prop
    [answers?.tasks?.[activeTaskIndex]?.answers]. *)
Definition correctOf (correctAnswers : JsVal) (index : nat) : Completion JsVal :=
  if nullish correctAnswers then Normal JUndef else
  let* e := get_index correctAnswers index in
  if nullish e then Normal JUndef else
  get_named e "answer".

(** The components that read the key entry at the question's index. *)
Inductive Component :=
| MultipleChoiceTask
| TrueFalseTask
| MatchingHeadingsTask
| SentenceCompletionTask
| ShortAnswerTask.

(** [currentAnswer === correct] *)
Definition exactMatch (currentAnswer : string) (correct : JsVal) : Completion bool :=
  Normal (str_strict_eq currentAnswer correct).

(** [currentAnswer.toLowerCase().trim() === correct?.toLowerCase().trim()] *)
Definition looseMatch (currentAnswer : string) (correct : JsVal) : Completion bool :=
  let lhs := JsString.trim (JsString.toLowerCase currentAnswer) in
  if nullish correct then Normal false else
  let* l := call_toLowerCase correct in
  Normal (JsString.eqb lhs (JsString.trim l)).

(** The comparison each component writes after [isSubmitted &&]. *)
Definition matches (c : Component) : string -> JsVal -> Completion bool :=
  match c with
  | MultipleChoiceTask | TrueFalseTask | MatchingHeadingsTask => exactMatch
  | SentenceCompletionTask | ShortAnswerTask => looseMatch
  end.

(** [isCorrect] of the question at [index] of the task. *)
Definition isCorrect (c : Component) (isSubmitted : bool)
    (answers : gmap string string) (correctAnswers : JsVal)
    (q : Question) (index : nat) : Completion bool :=
  let currentAnswer := currentAnswerOf answers q in
  let* correct := correctOf correctAnswers index in
  if isSubmitted then matches c currentAnswer correct else Normal false.

(** ** TrueFalseTask *)

(** [task.task_key?.includes('yes_no') ||
     task.instruction?.toLowerCase().includes('yes')] *)
Definition isYesNo (task : Task) : bool :=
  match task_key task with
  | Some k => JsString.includes k "yes_no"
  | None => false
  end
  ||
  match instruction task with
  | Some i => JsString.includes (JsString.toLowerCase i) "yes"
  | None => false
  end.

Definition options (task : Task) : list string :=
  if isYesNo task then ["YES"; "NO"; "NOT GIVEN"] else ["TRUE"; "FALSE"; "NOT GIVEN"].

(** A click on the button of option [opt] under question [index]; the
    component renders one button per question and option. *)
Record Click := mkClick {
  click_question : nat;
  click_option : nat
}.

(** [onClick={() => !isSubmitted && setAnswer(qKey, opt)}] *)
Definition onClick (task : Task) (isSubmitted : bool) (answers : gmap string string)
    (ev : Click) : gmap string string :=
  match questions task !! click_question ev, options task !! click_option ev with
  | Some q, Some opt =>
      if isSubmitted then answers else setAnswer answers (qKey q) opt
  | _, _ => answers
  end.

(** A run of clicks, each with the [isSubmitted] of the render it hits. *)
Definition clicks (task : Task) (answers : gmap string string)
    (evs : list (bool * Click)) : gmap string string :=
  fold_left (fun a ev => onClick task (fst ev) a (snd ev)) evs answers.

End Tasks.

(* ===================================================================== *)
(** * create/components: FileUpload *)
(* ===================================================================== *)

Module FileUpload.

Record File := mkFile {
  name : string;
  type : string;
  size : N
}.

Inductive Method := MethodFile | MethodUrl.

(** What a handler does besides setting state. *)
Inductive Effect :=
| OnFileSelected (file : option File) (url : string) (method : Method)
| Alert (text : string).

Record State := mkState {
  dragActive : bool;
  file : option File;
  fileUrl : string;
  uploadMethod : Method
}.

(** [files && files[0]] of a [FileList] that may be [null]. *)
Definition firstFile (files : option (list File)) : option File :=
  match files with
  | Some (f :: _) => Some f
  | _ => None
  end.

(** The branch shared by both handlers once a first file is there. *)
Definition accept (st : State) (f : File) : State * list Effect :=
  if JsString.eqb (type f) "application/pdf"
  then (mkState (dragActive st) (Some f) (fileUrl st) (uploadMethod st),
        [OnFileSelected (Some f) "" MethodFile])
  else (st, [Alert "Please upload a PDF file"]).

Definition handleDrop (disabled : bool) (st : State) (files : option (list File))
    : State * list Effect :=
  if disabled then (st, []) else
  let st1 := mkState false (file st) (fileUrl st) (uploadMethod st) in
  match firstFile files with
  | Some droppedFile => accept st1 droppedFile
  | None => (st1, [])
  end.

Definition handleFileChange (disabled : bool) (st : State) (files : option (list File))
    : State * list Effect :=
  if disabled then (st, []) else
  match firstFile files with
  | Some selectedFile => accept st selectedFile
  | None => (st, [])
  end.

Inductive Handler := OnDrop | OnFileChange.

Definition handle (h : Handler) : bool -> State -> option (list File) -> State * list Effect :=
  match h with
  | OnDrop => handleDrop
  | OnFileChange => handleFileChange
  end.

(** The files a handler run has passed to [onFileSelected]. *)
Definition forwarded (effects : list Effect) : list File :=
  omap (fun e => match e with
                 | OnFileSelected (Some f) _ _ => Some f
                 | _ => None
                 end) effects.

Definition isCallback (e : Effect) : bool :=
  match e with
  | OnFileSelected _ _ _ => true
  | Alert _ => false
  end.

(** The calls of [onFileSelected] among the effects. *)
Definition callbacks (effects : list Effect) : list Effect :=
  List.filter isCallback effects.

End FileUpload.

(* ===================================================================== *)
(** * create/components: SessionList *)
(* ===================================================================== *)

Module SessionList.

(** Modelled from the spec: the declaration of [SessionInfo] in [lib/types]
    is not among the sources; these are the fields the list renders. *)
Record SessionInfo := mkSession {
  session_id : string;
  filename : string;
  word_count : N;
  has_exam : bool;
  status : string
}.

(** [handleDelete]: [confirmed] is the answer to the confirm dialog,
    [deleted] whether [api.deleteSession] resolved. *)
Definition handleDelete (sessions : list SessionInfo) (id : string)
    (confirmed deleted : bool) : list SessionInfo :=
  if negb confirmed then sessions
  else if deleted
       then filter (fun s => session_id s <> id) sessions
       else sessions.


End SessionList.

(* ===================================================================== *)
(** * The generation endpoint of the session API *)
(* ===================================================================== *)

Module GenerationService.

(** Modelled from the spec: the stages of a generation job.  The server
    that owns the jobs is not among the sources; the stage names are the
    ones [pollStatus] switches on. *)
Inductive Stage :=
| queued
| preprocessing
| generating_passage
| planning_strategy
| generating_questions
| finalizing
| completed
| failed.

(** Modelled from the spec: [completed] and [failed] are the terminal
    stages of the server's state machine. *)
Definition terminal (s : Stage) : bool :=
  match s with
  | completed | failed => true
  | _ => false
  end.

(** Modelled from the spec: the strict forward order of the stages; a
    terminal stage has no successor. *)
Definition next (s : Stage) : Stage :=
  match s with
  | queued => preprocessing
  | preprocessing => generating_passage
  | generating_passage => planning_strategy
  | planning_strategy => generating_questions
  | generating_questions => finalizing
  | finalizing => completed
  | completed => completed
  | failed => failed
  end.

(** Modelled from the spec: the in-memory record of one generation, bound
    to its session. *)
Record GenerationJob := mkJob {
  job_session : string;
  stage : Stage
}.

(** Modelled from the spec: the server state, the ids of the sessions that
    exist and the job records; a job is active while its stage is not
    terminal. *)
Record Service := mkService {
  sessions : list string;
  jobs : list GenerationJob
}.

(** Modelled from the spec: the server starts with no session and no
    job. *)
Definition empty : Service := mkService [] [].

(** Modelled from the spec: the two errors of the taxonomy that a
    generation request can meet before any pipeline work. *)
Inductive Error :=
| JobAlreadyRunning
| SessionNotFound.

(** Modelled from the spec: the answer to a generation request. *)
Inductive Outcome :=
| Accepted
| Rejected (e : Error).

(** Modelled from the spec: a job is the active job of session [sid] when
    it is bound to that session and its stage is non-terminal. *)
Definition active (sid : string) (j : GenerationJob) : bool :=
  JsString.eqb (job_session j) sid && negb (terminal (stage j)).

(** Modelled from the spec: the active jobs of a session. *)
Definition activeJobs (sid : string) (svc : Service) : list GenerationJob :=
  List.filter (active sid) (jobs svc).

(** Modelled from the spec: [get(id)] finds the session. *)
Definition known (sid : string) (svc : Service) : bool :=
  existsb (JsString.eqb sid) (sessions svc).

(** Modelled from the spec: the generation request of the session API.  An
    unknown session is [SessionNotFound]; a session with a job in a
    non-terminal stage is [JobAlreadyRunning] and nothing is queued or
    merged; otherwise one job starts in [queued]. *)
Definition requestGeneration (sid : string) (svc : Service) : Outcome * Service :=
  if negb (known sid svc) then (Rejected SessionNotFound, svc)
  else if existsb (active sid) (jobs svc) then (Rejected JobAlreadyRunning, svc)
  else (Accepted, mkService (sessions svc) (mkJob sid queued :: jobs svc)).

(** Modelled from the spec: a stage transition, forward by one stage. *)
Definition advance (j : GenerationJob) : GenerationJob :=
  mkJob (job_session j) (next (stage j)).

(** Modelled from the spec: [failed] is reachable from any non-terminal
    stage. *)
Definition fail (j : GenerationJob) : GenerationJob :=
  mkJob (job_session j) (if terminal (stage j) then stage j else failed).

(** Modelled from the spec: what can happen to the server state: a session
    is created, a generation is requested, the orchestrator moves the
    [n]-th job one stage forward or fails it. *)
Inductive Event :=
| CreateSession (sid : string)
| RequestGeneration (sid : string)
| Advance (n : nat)
| Fail (n : nat).

(** Modelled from the spec: the effect of one event on the server
    state. *)
Definition step (svc : Service) (ev : Event) : Service :=
  match ev with
  | CreateSession sid => mkService (sid :: sessions svc) (jobs svc)
  | RequestGeneration sid => snd (requestGeneration sid svc)
  | Advance n => mkService (sessions svc) (alter advance n (jobs svc))
  | Fail n => mkService (sessions svc) (alter fail n (jobs svc))
  end.

(** Modelled from the spec: the states the server can reach. *)
Definition run (evs : list Event) : Service := fold_left step evs empty.

(** Modelled from the spec: the invariant of the data model, no session
    has two active jobs and every job belongs to a session that exists. *)
Definition wellFormed (svc : Service) : Prop :=
  (forall sid, length (activeJobs sid svc) <= 1)
  /\ (forall j, In j (jobs svc) -> known (job_session j) svc = true).


End GenerationService.

(* ===================================================================== *)
(** * Sample data *)
(* ===================================================================== *)

Module Samples.

Import ExamClient.

(** A short-answer task with two questions, its key and a submission that
    matches it up to case and surrounding blanks. *)
Definition exam2 : Exam :=
  mkExam [mkTask "Short Answer" (Some "short_answer") None [mkQuestion 1; mkQuestion 2]].

Definition key2 : AnswerKey :=
  [Some [Some (mkAnswerEntry (Some " Paris ") (Some "Paragraph B"));
         Some (mkAnswerEntry (Some "TRUE") None)]].

Definition submission2 : gmap string string :=
  {[ "q-1" := "paris"; "q-2" := "true " ]}.

(** One question whose key entry is the empty string, and a submission
    that holds the empty string for it. *)
Definition exam1 : Exam :=
  mkExam [mkTask "Short Answer" (Some "short_answer") None [mkQuestion 1]].

Definition blankKey : AnswerKey := [Some [Some (mkAnswerEntry (Some "") None)]].

Definition blankSubmission : gmap string string := {[ "q-1" := "" ]}.

(** [{ tasks: [ {} ] }]: a task entry without its [answers] array. *)
Definition keyWithoutAnswers : JsVal := JObj [("tasks", JArr [JObj []])].

(** Status responses of the server. *)
Definition failedAt60 : CreateExam.ExamStatus :=
  CreateExam.mkStatus "failed" (Some 60%Z) (Some "Model request timed out").

Definition generatingAt150 : CreateExam.ExamStatus :=
  CreateExam.mkStatus "generating_questions" (Some 150%Z) None.

Definition generatingAt70 : CreateExam.ExamStatus :=
  CreateExam.mkStatus "generating_questions" (Some 70%Z) None.

Definition completedAt100 : CreateExam.ExamStatus :=
  CreateExam.mkStatus "completed" (Some 100%Z) None.

Definition pdfSource : CreateExam.Source :=
  CreateExam.mkSource (Some "paper.pdf") "" CreateExam.MethodFile.

(** A True/False/Not Given task and a yes/no variant of it. *)
Definition tfTask : Task :=
  mkTask "True/False/Not Given" (Some "true_false_not_given")
         (Some "Do the following statements agree with the passage?")
         [mkQuestion 6; mkQuestion 7].

Definition ynTask : Task :=
  mkTask "Yes/No/Not Given" (Some "yes_no_not_given") None [mkQuestion 8].

(** [[ { answer: "true" } ]]: a key entry in lower case. *)
Definition lowerCaseKey : JsVal := JArr [JObj [("answer", JStr "true")]].

Definition pdfFile : FileUpload.File := FileUpload.mkFile "paper.pdf" "application/pdf" 52133.

Definition wordFile : FileUpload.File :=
  FileUpload.mkFile "paper.docx"
    "application/vnd.openxmlformats-officedocument.wordprocessingml.document" 9120.

Definition emptyUpload : FileUpload.State :=
  FileUpload.mkState true None "" FileUpload.MethodFile.

End Samples.

(* ===================================================================== *)
(** * exam/ExamClient.tsx: clock, tabs and the key handed to a task *)
(* ===================================================================== *)

Module ExamTimer.

Local Open Scope Z_scope.

(** [formatTime]: [seconds] is the whole number of seconds left, negative
    in overtime. *)
Definition formatTime (seconds : Z) : string :=
  let isNegative := seconds <? 0 in
  let absSeconds := Z.abs seconds in
  let m := absSeconds / 60 in
  let s := absSeconds mod 60 in
  (if isNegative then "-" else "")
  +:+ pretty m +:+ ":" +:+ (if s <? 10 then "0" else "") +:+ pretty s.

(** The state the timer effect and its handlers read and set. *)
Record TimerState := mkTimer {
  timeLeft : Z;
  timerActive : bool;
  isSubmitted : bool;
  isOvertime : bool;
  showTimeUpModal : bool
}.

(** [useState(20 * 60)], the timer stopped, nothing submitted. *)
Definition initialTimer : TimerState := mkTimer (20 * 60) false false false false.

(** [timerActive && !isSubmitted] and then [timeLeft === 0 && !isOvertime]:
    the branch of the effect that stops the timer and opens the dialog. *)
Definition timeIsUp (st : TimerState) : bool :=
  timerActive st && negb (isSubmitted st)
  && ((timeLeft st =? 0) && negb (isOvertime st)).

(** The state the timer effect leaves after a render. *)
Definition timerEffect (st : TimerState) : TimerState :=
  if timeIsUp st
  then mkTimer (timeLeft st) false (isSubmitted st) (isOvertime st) true
  else st.

(** Whether the effect has installed the one-second interval. *)
Definition counting (st : TimerState) : bool :=
  timerActive st && negb (isSubmitted st)
  && negb ((timeLeft st =? 0) && negb (isOvertime st)).

(** One firing of the interval: [setTimeLeft((t) => t - 1)]. *)
Definition tick (st : TimerState) : TimerState :=
  if counting st
  then mkTimer (timeLeft st - 1) (timerActive st) (isSubmitted st) (isOvertime st)
               (showTimeUpModal st)
  else st.

Definition setTimerActive (st : TimerState) (b : bool) : TimerState :=
  mkTimer (timeLeft st) b (isSubmitted st) (isOvertime st) (showTimeUpModal st).

Definition handleContinueExam (st : TimerState) : TimerState :=
  mkTimer (timeLeft st) true (isSubmitted st) true false.

(** [handleSubmit], on the timer state; [confirmed] is the answer to the
    confirm dialog. *)
Definition handleSubmit (st : TimerState) (confirmed : bool) : TimerState :=
  if confirmed
  then mkTimer (timeLeft st) false true (isOvertime st) (showTimeUpModal st)
  else st.

(** What can happen to the clock: a click on a button that is rendered, or
    a firing of the interval. *)
Inductive TimerEvent :=
| ClickStart
| ClickPause
| IntervalFires
| ClickContinue
| ClickSubmit (confirmed : bool).

(** The handler of an event, where the page renders its button: Start or
    Resume while the timer is stopped, Pause while it runs, both only
    before submission; Submit before submission or in the time-up dialog;
    Continue in the time-up dialog. *)
Definition handle (st : TimerState) (ev : TimerEvent) : TimerState :=
  match ev with
  | ClickStart =>
      if negb (isSubmitted st) && negb (timerActive st) then setTimerActive st true else st
  | ClickPause =>
      if negb (isSubmitted st) && timerActive st then setTimerActive st false else st
  | IntervalFires => tick st
  | ClickContinue => if showTimeUpModal st then handleContinueExam st else st
  | ClickSubmit confirmed =>
      if negb (isSubmitted st) || showTimeUpModal st then handleSubmit st confirmed else st
  end.

(** An event, the render it causes and the effect of that render. *)
Definition step (st : TimerState) (ev : TimerEvent) : TimerState :=
  timerEffect (handle st ev).

Definition run (evs : list TimerEvent) : TimerState := fold_left step evs initialTimer.

End ExamTimer.

Module ExamView.

(** [userAnswers[`q-${num}`]] in a boolean position. *)
Definition hasAnswer (userAnswers : gmap string string) (q : Question) : bool :=
  match userAnswers !! qKey q with
  | Some s => JsString.truthy s
  | None => false
  end.

(** [taskQNums.every(num => userAnswers[`q-${num}`])] *)
Definition isComplete (task : Task) (userAnswers : gmap string string) : bool :=
  forallb (hasAnswer userAnswers) (questions task).

(** [taskQNums.some(num => userAnswers[`q-${num}`])] *)
Definition hasSome (task : Task) (userAnswers : gmap string string) : bool :=
  existsb (hasAnswer userAnswers) (questions task).

Inductive Dot := Green | Yellow | Gray.

(** [isComplete ? 'bg-green-500' : hasSome ? 'bg-yellow-500' : 'bg-gray-700'] *)
Definition dot (task : Task) (userAnswers : gmap string string) : Dot :=
  if isComplete task userAnswers then Green
  else if hasSome task userAnswers then Yellow
  else Gray.

(** [v?.name]: [undefined] for a nullish [v]. *)
Definition opt_named (v : JsVal) (name : string) : JsVal :=
  if nullish v then JUndef
  else match get_named v name with Normal r => r | Throw => JUndef end.

(** [v?.[i]] *)
Definition opt_index (v : JsVal) (i : nat) : JsVal :=
  if nullish v then JUndef
  else match get_index v i with Normal r => r | Throw => JUndef end.

(** The prop [correctAnswers={answers?.tasks?.[activeTaskIndex]?.answers}]
    handed to the component of the active task. *)
Definition correctAnswersProp (answers : JsVal) (activeTaskIndex : nat) : JsVal :=
  opt_named (opt_index (opt_named answers "tasks") activeTaskIndex) "answers".

End ExamView.

(* ===================================================================== *)
(** * exam/components/TaskRenderer.tsx *)
(* ===================================================================== *)

Module Renderer.

(** The component [TaskRenderer] returns; [GenericView] is the fallback
    that wraps [ShortAnswerTask]. *)
Inductive View :=
| MultipleChoiceView
| TrueFalseView
| SummaryCompletionView
| MatchingHeadingsView
| SentenceCompletionView
| MatchingInformationView
| MatchingFeaturesView
| ShortAnswerView
| GenericView.

(** [task.summary_text && task.summary_text.length > 0], with the task's
    [summary_text] given beside the task. *)
Definition hasSummaryText (summary_text : option string) : bool :=
  match summary_text with
  | Some s => JsString.truthy s && Nat.ltb 0 (String.length s)
  | None => false
  end.

Definition TaskRenderer (task : Task) (summary_text : option string) : View :=
  let type := JsString.toLowerCase (JsString.or_else (task_type task) "") in
  let key := JsString.toLowerCase (JsString.or_else (default "" (task_key task)) "") in
  let has := JsString.includes in
  if has type "multiple choice" then MultipleChoiceView
  else if has type "true" || has type "false" || has type "yes" || has type "no"
          || has key "true_false" || has key "yes_no" then TrueFalseView
  else if has type "summary" || has key "summary" || hasSummaryText summary_text
       then SummaryCompletionView
  else if has type "heading" || has key "heading" then MatchingHeadingsView
  else if has type "sentence" || has key "sentence" then SentenceCompletionView
  else if has type "matching information" || has key "matching_information"
       then MatchingInformationView
  else if has type "matching features" || has key "matching_features"
          || has type "matching_features" then MatchingFeaturesView
  else if has type "short answer" || has key "short_answer" then ShortAnswerView
  else GenericView.

End Renderer.

(* ===================================================================== *)
(** * create/components/ProcessStatus.tsx *)
(* ===================================================================== *)

Module ProcessStatus.

Local Open Scope Z_scope.

Record Step := mkStep {
  id : Z;
  title : string;
  threshold : Z
}.

Definition steps : list Step :=
  [ mkStep 1 "Upload" 0;
    mkStep 2 "Analyze" 20;
    mkStep 3 "Plan" 40;
    mkStep 4 "Generate" 60;
    mkStep 5 "Validate" 80 ].

(** [progress > step.threshold + 15] *)
Definition isCompleted (progress : Z) (step : Step) : bool :=
  threshold step + 15 <? progress.

(** [progress >= step.threshold && progress < (step.threshold + 20)] *)
Definition isActive (progress : Z) (step : Step) : bool :=
  (threshold step <=? progress) && (progress <? threshold step + 20).

Inductive Node := Completed | Active | Idle.

(** The node of a step: [isCompleted ? ... : isActive ? ... : ...]. *)
Definition node (progress : Z) (step : Step) : Node :=
  if isCompleted progress step then Completed
  else if isActive progress step then Active
  else Idle.

(** The order in which the three kinds of node follow each other along
    the track. *)
Definition nodeRank (n : Node) : Z :=
  match n with
  | Completed => 0
  | Active => 1
  | Idle => 2
  end.

(** [progress === 100 ? "Exam Ready!" : "AI Processing"] *)
Definition header (progress : Z) : string :=
  if progress =? 100 then "Exam Ready!" else "AI Processing".

(** [`>> ${statusMessage || "Initializing..."}`] *)
Definition statusLine (statusMessage : string) : string :=
  ">> " +:+ JsString.or_else statusMessage "Initializing...".

End ProcessStatus.

(* ===================================================================== *)
(** * create/components/ExamConfig.tsx *)
(* ===================================================================== *)

Module ExamConfigUI.

Import CreateExam.
Local Open Scope Z_scope.

(** The [value]s of [passageTypes]. *)
Definition passageTypes : list Z := [1; 2; 3].

(** The choices of the variety buttons, [[2, 3].map(...)]. *)
Definition varieties : list Z := [2; 3].

(** The range input: [min="10" max="20" step="1"]. *)
Definition sliderMin : Z := 10.
Definition sliderMax : Z := 20.

(** A click on the [i]-th passage card or variety button, or a move of
    the slider to [v], the number [parseInt(e.target.value)] reads. *)
Inductive ConfigEvent :=
| PickPassage (i : nat)
| MoveSlider (v : Z)
| PickVariety (i : nat).

(** The patch an event passes to [onChange]; the cards and buttons are
    guarded by [!disabled &&], the range input by its [disabled]
    attribute. *)
Definition patchOf (disabled : bool) (ev : ConfigEvent) : option ConfigPatch :=
  if disabled then None else
  match ev with
  | PickPassage i =>
      match passageTypes !! i with
      | Some v => Some (mkPatch (Some v) None None)
      | None => None
      end
  | MoveSlider v => Some (mkPatch None (Some v) None)
  | PickVariety i =>
      match varieties !! i with
      | Some v => Some (mkPatch None None (Some v))
      | None => None
      end
  end.

Definition onEvent (examConfig : ExamConfigState) (ev : bool * ConfigEvent)
    : ExamConfigState :=
  match patchOf (fst ev) (snd ev) with
  | Some p => handleConfigChange examConfig p
  | None => examConfig
  end.

(** The configuration after the mount effect and a run of events, each
    with the [disabled] of its render. *)
Definition configure (evs : list (bool * ConfigEvent)) : ExamConfigState :=
  fold_left onEvent evs (afterMount initialExamConfig).

(** The slider only yields values of its range. *)
Definition inSliderRange (ev : bool * ConfigEvent) : Prop :=
  match snd ev with
  | MoveSlider v => sliderMin <= v <= sliderMax
  | _ => True
  end.

(** The ranges the controls offer. *)
Definition offered (c : ExamConfigState) : Prop :=
  (passageType c = 1 \/ passageType c = 2 \/ passageType c = 3)
  /\ sliderMin <= totalQuestions c <= sliderMax
  /\ (numQuestionTypes c = 2 \/ numQuestionTypes c = 3).

End ExamConfigUI.

(* ===================================================================== *)
(** * FileUpload and the page that owns it *)
(* ===================================================================== *)

Module UploadFlow.

Import FileUpload.

(** [handleDrag]; [type] is [e.type]. *)
Definition handleDrag (disabled : bool) (st : State) (type : string) : State :=
  if disabled then st
  else if JsString.eqb type "dragenter" || JsString.eqb type "dragover"
  then mkState true (file st) (fileUrl st) (uploadMethod st)
  else if JsString.eqb type "dragleave"
  then mkState false (file st) (fileUrl st) (uploadMethod st)
  else st.

Definition handleUrlChange (disabled : bool) (st : State) (url : string)
    : State * list Effect :=
  if disabled then (st, []) else
  (mkState (dragActive st) (file st) url (uploadMethod st),
   [OnFileSelected None url MethodUrl]).

Definition handleMethodChange (disabled : bool) (st : State) (method : Method)
    : State * list Effect :=
  if disabled then (st, []) else
  (mkState (dragActive st) (file st) (fileUrl st) method,
   [match method with
    | MethodFile => OnFileSelected (file st) "" MethodFile
    | MethodUrl => OnFileSelected None (fileUrl st) MethodUrl
    end]).

Definition handleRemoveFile (disabled : bool) (st : State) : State * list Effect :=
  if disabled then (st, []) else
  (mkState (dragActive st) None (fileUrl st) (uploadMethod st),
   [OnFileSelected None "" MethodFile]).

(** The selection the page keeps: [file], [fileUrl], [uploadMethod] and
    [error] of [CreateExam]. *)
Record Selection := mkSelection {
  selFile : option File;
  selUrl : string;
  selMethod : Method;
  selError : option string
}.

(** [handleFileSelected] of the page. *)
Definition handleFileSelected (sel : Selection) (selectedFile : option File)
    (selectedUrl : string) (method : Method) : Selection :=
  mkSelection selectedFile selectedUrl method None.

(** The page receives the calls of [onFileSelected]; an alert leaves it
    as it is. *)
Definition receive (sel : Selection) (e : Effect) : Selection :=
  match e with
  | OnFileSelected f url m => handleFileSelected sel f url m
  | Alert _ => sel
  end.

Inductive UiEvent :=
| DragOver (type : string)
| DropFiles (files : option (list File))
| ChooseFiles (files : option (list File))
| TypeUrl (url : string)
| SwitchMethod (method : Method)
| RemoveFile.

Definition isFileMode (st : State) : bool :=
  match uploadMethod st with MethodFile => true | MethodUrl => false end.

(** The handler an event reaches.  The drop area, the file input and the
    remove button are rendered in file mode only (the button when a file
    is chosen and the component is enabled), the URL input in URL mode
    only; the two method buttons are always there. *)
Definition dispatch (disabled : bool) (st : State) (ev : UiEvent) : State * list Effect :=
  match ev with
  | DragOver type => if isFileMode st then (handleDrag disabled st type, []) else (st, [])
  | DropFiles files => if isFileMode st then handleDrop disabled st files else (st, [])
  | ChooseFiles files => if isFileMode st then handleFileChange disabled st files else (st, [])
  | TypeUrl url => if isFileMode st then (st, []) else handleUrlChange disabled st url
  | SwitchMethod method => handleMethodChange disabled st method
  | RemoveFile =>
      if isFileMode st && bool_decide (is_Some (file st)) && negb disabled
      then handleRemoveFile disabled st
      else (st, [])
  end.

(** The component and the page after an event; [disabled] is the
    [isProcessing] of the render the event hits. *)
Definition step (cs : State * Selection) (ev : bool * UiEvent) : State * Selection :=
  let r := dispatch (fst ev) (fst cs) (snd ev) in
  (fst r, fold_left receive (snd r) (snd cs)).

Definition initialState : State := mkState false None "" MethodFile.
Definition initialSelection : Selection := mkSelection None "" MethodFile None.

Definition run (evs : list (bool * UiEvent)) : State * Selection :=
  fold_left step evs (initialState, initialSelection).

(** What [handleProcess] passes to [api.createSession]: nothing when the
    page has neither file nor URL, otherwise [fileToUpload] and
    [urlToUpload]. *)
Definition uploadArgs (sel : Selection) : option (option File * option string) :=
  if negb (bool_decide (is_Some (selFile sel))) && negb (JsString.truthy (selUrl sel))
  then None
  else Some (match selMethod sel with
             | MethodFile => selFile sel
             | MethodUrl => None
             end,
             match selMethod sel with
             | MethodUrl => if JsString.truthy (selUrl sel) then Some (selUrl sel) else None
             | MethodFile => None
             end).

Definition isPdf (f : option File) : Prop :=
  match f with
  | Some f => type f = "application/pdf"
  | None => True
  end.

(** The page mirrors the component. *)
Definition inSync (cs : State * Selection) : Prop :=
  selMethod (snd cs) = uploadMethod (fst cs)
  /\ match uploadMethod (fst cs) with
     | MethodFile => selFile (snd cs) = file (fst cs) /\ selUrl (snd cs) = ""
     | MethodUrl => selFile (snd cs) = None /\ selUrl (snd cs) = fileUrl (fst cs)
     end
  /\ isPdf (file (fst cs)).

End UploadFlow.

(* ===================================================================== *)
(** * Polls in flight *)
(* ===================================================================== *)

Module PollOrder.

Import CreateExam.

(** A poll that leaves the timer alone: the request was rejected, or the
    status is neither [failed] nor [completed]. *)
Definition inFlight (r : option ExamStatus) : Prop :=
  match r with
  | Some s => terminalStatus s = false
  | None => True
  end.


End PollOrder.

(* ===================================================================== *)
(** * The components that find their key entry in other ways *)
(* ===================================================================== *)

Module QuestionMarks.

Import Tasks.

(** The code units [toUpperCase] gives for one code unit below 256: the
    letters a-z and U+00E0..U+00FE except the division sign U+00F7 move
    down by 32; the sharp s becomes SS; y with diaeresis and the micro
    sign leave the Latin-1 range. *)
Definition upper_units (c : ascii) : list N :=
  let n := JsString.code c in
  if (N.leb 97 n && N.leb n 122)
     || (N.leb 224 n && N.leb n 246)
     || (N.leb 248 n && N.leb n 254)
  then [(n - 32)%N]
  else if N.eqb n 223 then [83%N; 83%N]
  else if N.eqb n 255 then [376%N]
  else if N.eqb n 181 then [924%N]
  else [n].

(** [s.toUpperCase()], as the code units of the result. *)
Fixpoint toUpperCase (s : string) : list N :=
  match s with
  | EmptyString => []
  | String c r => upper_units c ++ toUpperCase r
  end.

(** [v.toUpperCase()]: only strings have the method. *)
Definition call_toUpperCase (v : JsVal) : Completion (list N) :=
  match v with
  | JStr s => Normal (toUpperCase s)
  | _ => Throw
  end.

(** [x === qNum] with the question number on the right. *)
Definition isQuestion (qNum : N) (x : JsVal) : bool :=
  match x with
  | JNum n => Z.eqb n (Z.of_N qNum)
  | _ => false
  end.

(** [items.find((a) => a.question === qNum)]: the first entry whose
    [question] is the number; reading [question] of a [null] entry met on
    the way throws. *)
Fixpoint find_question (qNum : N) (items : list JsVal) : Completion JsVal :=
  match items with
  | [] => Normal JUndef
  | a :: rest =>
      let* x := get_named a "question" in
      if isQuestion qNum x then Normal a else find_question qNum rest
  end.

(** [correctAnswers?.find(...)]: [find] is a method of arrays only. *)
Definition findOptional (qNum : N) (correctAnswers : JsVal) : Completion JsVal :=
  match correctAnswers with
  | JUndef | JNull => Normal JUndef
  | JArr items => find_question qNum items
  | _ => Throw
  end.

(** [task.questions.findIndex(q => q.question_number === qNum)]; [None]
    is the -1 of a number that no question has. *)
Fixpoint findIndex (qNum : N) (qs : list Question) : option nat :=
  match qs with
  | [] => None
  | q :: rest =>
      if N.eqb (question_number q) qNum then Some 0
      else option_map S (findIndex qNum rest)
  end.

(** [v?.[qIndex]] for the result of [findIndex]. *)
Definition atFound (v : JsVal) (qIndex : option nat) : JsVal :=
  match v with
  | JArr items =>
      match qIndex with Some i => nth i items JUndef | None => JUndef end
  | JObj props =>
      lookup_prop (match qIndex with Some i => pretty i | None => "-1" end) props
  | JStr s =>
      match qIndex with Some i => char_at s i | None => JUndef end
  | _ => JUndef
  end.

(** [Array.isArray(correctAnswers)
     ? correctAnswers.find((a) => a.question === qNum)
     : correctAnswers?.[qIndex]] *)
Definition summaryData (task : Task) (qNum : N) (correctAnswers : JsVal)
    : Completion JsVal :=
  match correctAnswers with
  | JArr items => find_question qNum items
  | other => Normal (atFound other (findIndex qNum (questions task)))
  end.

(** [currentAnswer.trim().toLowerCase() === correctAnswer?.trim().toLowerCase()] *)
Definition trimLowerMatch (currentAnswer : string) (correctAnswer : JsVal)
    : Completion bool :=
  let lhs := JsString.toLowerCase (JsString.trim currentAnswer) in
  if nullish correctAnswer then Normal false else
  let* t := call_trim correctAnswer in
  Normal (JsString.eqb lhs (JsString.toLowerCase t)).

(** [isCorrect] of a question in [MatchingFeaturesTask]. *)
Definition matchingFeaturesCorrect (isSubmitted : bool) (answers : gmap string string)
    (correctAnswers : JsVal) (q : Question) : Completion bool :=
  let currentAnswer := currentAnswerOf answers q in
  let* correctData := findOptional (question_number q) correctAnswers in
  let correctAnswer := ExamView.opt_named correctData "answer" in
  if isSubmitted then trimLowerMatch currentAnswer correctAnswer else Normal false.

(** [isCorrect] of the blank that carries the number of [q] in
    [SummaryCompletionTask]. *)
Definition summaryCompletionCorrect (isSubmitted : bool) (answers : gmap string string)
    (correctAnswers : JsVal) (task : Task) (q : Question) : Completion bool :=
  let currentAnswer := currentAnswerOf answers q in
  let* correctData := summaryData task (question_number q) correctAnswers in
  let correctAnswer := ExamView.opt_named correctData "answer" in
  if isSubmitted then trimLowerMatch currentAnswer correctAnswer else Normal false.

(** [x || y] on values. *)
Definition or_value (x y : JsVal) : JsVal := if truthy x then x else y.

(** [isCorrect] of a question in [MatchingInformationTask];
    [correct_paragraph] is the field of that name of the question, given
    beside it:
    [correct = correctAnswers?.[index]?.answer || q.correct_paragraph] and
    [currentAnswer.toUpperCase() === (correct || "").toUpperCase()]. *)
Definition matchingInformationCorrect (isSubmitted : bool)
    (answers : gmap string string) (correctAnswers : JsVal) (q : Question)
    (index : nat) (correct_paragraph : option string) : Completion bool :=
  let currentAnswer := currentAnswerOf answers q in
  let* answer := correctOf correctAnswers index in
  let correct :=
    or_value answer (match correct_paragraph with Some p => JStr p | None => JUndef end) in
  if isSubmitted then
    let* u := call_toUpperCase (or_value correct (JStr "")) in
    Normal (bool_decide (toUpperCase currentAnswer = u))
  else Normal false.

(** Every component [TaskRenderer] can return. *)
Inductive AnyComponent :=
| Indexed (c : Component)
| SummaryCompletionTask
| MatchingFeaturesTask
| MatchingInformationTask.

(** The correctness a component shows for a question of its task. *)
Definition shownCorrect (v : AnyComponent) (isSubmitted : bool)
    (answers : gmap string string) (correctAnswers : JsVal) (task : Task)
    (q : Question) (index : nat) (correct_paragraph : option string)
    : Completion bool :=
  match v with
  | Indexed c => isCorrect c isSubmitted answers correctAnswers q index
  | SummaryCompletionTask =>
      summaryCompletionCorrect isSubmitted answers correctAnswers task q
  | MatchingFeaturesTask => matchingFeaturesCorrect isSubmitted answers correctAnswers q
  | MatchingInformationTask =>
      matchingInformationCorrect isSubmitted answers correctAnswers q index correct_paragraph
  end.

(** [e] is the first entry of the key whose [question] is the number, and
    no entry before it is [null]. *)
Definition firstWithQuestion (qNum : N) (items : list JsVal) (e : JsVal) : Prop :=
  exists pre post,
    items = (pre ++ e :: post)%list
    /\ Forall (fun a => nullish a = false
                        /\ isQuestion qNum (ExamView.opt_named a "question") = false) pre
    /\ nullish e = false
    /\ isQuestion qNum (ExamView.opt_named e "question") = true.

(** The key entry a component holds against a question: the entry at the
    question's index, or the first entry with the question's number. *)
Definition entryFor (v : AnyComponent) (q : Question) (index : nat)
    (items : list JsVal) (e : JsVal) : Prop :=
  match v with
  | Indexed _ | MatchingInformationTask => items !! index = Some e
  | SummaryCompletionTask | MatchingFeaturesTask =>
      firstWithQuestion (question_number q) items e
  end.

(** A key whose second entry answers question 7 with [B]. *)
Definition numberedKey : list JsVal :=
  [JObj [("question", JNum 6); ("answer", JStr "D")];
   JObj [("question", JNum 7); ("answer", JStr "B")]].

End QuestionMarks.

(* ===================================================================== *)
(** * Deletes and polls that overlap *)
(* ===================================================================== *)

Module DeleteFlow.

Import SessionList.

(** A call of [handleDelete] that waits for [api.deleteSession]: the list
    its render closed over and the id it was given. *)
Record PendingDelete := mkPending {
  closedOver : list SessionInfo;
  target : string
}.

Record ListState := mkList {
  shown : list SessionInfo;
  pending : list PendingDelete
}.

(** A click on a delete button with the answer to the confirm dialog, or
    the end of the [n]-th waiting [api.deleteSession], resolved or
    rejected. *)
Inductive DeleteEvent :=
| ClickDelete (id : string) (confirmed : bool)
| Settle (n : nat) (resolved : bool).

(** A click starts a call on the list shown by the current render; when a
    call's request resolves it sets the filter of the list it closed
    over, when it rejects it sets nothing. *)
Definition step (st : ListState) (ev : DeleteEvent) : ListState :=
  match ev with
  | ClickDelete id confirmed =>
      if confirmed
      then mkList (shown st) (pending st ++ [mkPending (shown st) id])
      else st
  | Settle n resolved =>
      match pending st !! n with
      | Some p =>
          mkList (if resolved
                  then handleDelete (closedOver p) (target p) true true
                  else shown st)
                 (delete n (pending st))
      | None => st
      end
  end.

Definition run (sessions : list SessionInfo) (evs : list DeleteEvent) : ListState :=
  fold_left step evs (mkList sessions []).

(** Deletes made in turn: each one confirmed and resolved before the next
    click. *)
Definition inTurn (ids : list string) : list DeleteEvent :=
  flat_map (fun id => [ClickDelete id true; Settle 0 true]) ids.

End DeleteFlow.

Module PollFlow.

Import CreateExam.

(** The page while requests may be out: its state, the number of
    [api.getExamStatus] requests not yet answered and the number of
    requests issued so far. *)
Record Flight := mkFlight {
  page : PollState;
  unanswered : nat;
  issued : nat
}.

(** A firing of the interval, which calls [pollStatus] and so issues a
    request if the interval has not been cleared; or the arrival of the
    answer to a request that is out, on which [pollStatus] resumes after
    its [await]. *)
Inductive NetEvent :=
| TimerFires
| AnswerArrives (r : option ExamStatus).

Definition step (f : Flight) (ev : NetEvent) : Flight :=
  match ev with
  | TimerFires =>
      if intervalRunning (page f)
      then mkFlight (page f) (S (unanswered f)) (S (issued f))
      else f
  | AnswerArrives r =>
      match unanswered f with
      | O => f
      | S n => mkFlight (pollStatus (page f) r) n (issued f)
      end
  end.

(** [await pollStatus(); pollInterval = setInterval(pollStatus, 2000)]:
    the first request is answered by [r0] before the interval exists. *)
Definition start (r0 : option ExamStatus) : Flight :=
  mkFlight (setInterval (pollStatus pollingStart r0)) 0 1.

Definition run (f : Flight) (evs : list NetEvent) : Flight := fold_left step evs f.

End PollFlow.

(* ===================================================================== *)
(** * Facts about strings *)
(* ===================================================================== *)

Section StringFacts.

Import JsString.

Lemma is_space_lower_char (c : ascii) : is_space (lower_char c) = is_space c.
Proof. destruct c as [[] [] [] [] [] [] [] []]; reflexivity. Qed.

Lemma toLowerCase_empty (s : string) : toLowerCase s = "" -> s = "".
Proof. destruct s; [reflexivity | discriminate]. Qed.

Lemma truthy_toLowerCase (s : string) : truthy (toLowerCase s) = truthy s.
Proof. destruct s; reflexivity. Qed.

Lemma toLowerCase_trimStart (s : string) :
  toLowerCase (trimStart s) = trimStart (toLowerCase s).
Proof.
  induction s as [|c r IH]; simpl; [reflexivity|].
  rewrite is_space_lower_char.
  destruct (is_space c); [exact IH | reflexivity].
Qed.

Lemma toLowerCase_trimEnd (s : string) :
  toLowerCase (trimEnd s) = trimEnd (toLowerCase s).
Proof.
  induction s as [|c r IH]; simpl; [reflexivity|].
  rewrite <- IH, is_space_lower_char.
  destruct (trimEnd r) as [|c' r']; simpl.
  - destruct (is_space c); reflexivity.
  - reflexivity.
Qed.

(** Trimming and lower-casing commute, so the two orders the components
    use give the same normal form. *)
Lemma trim_toLowerCase (s : string) :
  trim (toLowerCase s) = toLowerCase (trim s).
Proof.
  unfold trim. now rewrite toLowerCase_trimEnd, toLowerCase_trimStart.
Qed.

Lemma eqb_true (a b : string) : eqb a b = true <-> a = b.
Proof. unfold eqb. apply bool_decide_eq_true. Qed.

Lemma eqb_refl (a : string) : eqb a a = true.
Proof. now apply eqb_true. Qed.

Lemma truthy_false (s : string) : truthy s = false <-> s = "".
Proof. destruct s; simpl; split; congruence. Qed.

End StringFacts.

(* ===================================================================== *)
(** * calculateScore *)
(* ===================================================================== *)

Section CalculateScoreFacts.

Import ExamClient.

Lemma nth_map_lookup {A} (f : A -> JsVal) (l : list A) (i : nat) :
  nth i (map f l) JUndef = match l !! i with Some x => f x | None => JUndef end.
Proof.
  revert i; induction l as [|x l IH]; intros [|i]; simpl; auto.
Qed.

Lemma lookup_answer_field (e : AnswerEntry) :
  lookup_prop "answer" (field_js "answer" (answer e) ++ field_js "explanation" (explanation e))
  = match answer e with Some s => JStr s | None => JUndef end.
Proof.
  destruct (answer e), (explanation e); reflexivity.
Qed.

(** On a key of the server's shape the optional chain never throws and
    reads the stored entry. *)
Lemma correctAns_key (k : AnswerKey) (tIdx qIdx : nat) :
  correctAns (key_js k) tIdx qIdx = Normal (normalize <$> key_answer k tIdx qIdx).
Proof.
  unfold correctAns, key_answer, key_js. cbn [get_named lookup_prop].
  change (JsString.eqb "tasks" "tasks") with true. cbn [Js.bind get_index].
  rewrite nth_map_lookup.
  destruct (k !! tIdx) as [[es|]|]; cbn; try reflexivity.
  rewrite eqb_refl. cbn [Js.bind get_index].
  rewrite nth_map_lookup.
  destruct (es !! qIdx) as [[e|]|]; cbn; try reflexivity.
  rewrite lookup_answer_field.
  destruct (answer e); reflexivity.
Qed.

Lemma scoreQuestions_key (ua : gmap string string) (k : AnswerKey) (tIdx : nat)
    (qs : list Question) :
  forall qIdx c t,
    scoreQuestions (key_js k) ua tIdx qIdx qs (c, t)
    = Normal (c + hitsQuestions ua k tIdx qIdx qs, t + length qs).
Proof.
  induction qs as [|q rest IH]; intros qIdx c t; simpl.
  - f_equal. f_equal; lia.
  - unfold scoreQuestion. rewrite correctAns_key. cbn [Js.bind fst snd].
    rewrite IH. fold (hit ua k tIdx qIdx q).
    f_equal. destruct (hit ua k tIdx qIdx q); f_equal; lia.
Qed.

Lemma scoreTasks_key (ua : gmap string string) (k : AnswerKey) (ts : list Task) :
  forall tIdx c t,
    scoreTasks (key_js k) ua tIdx ts (c, t)
    = Normal (c + hitsTasks ua k tIdx ts,
              t + list_sum (map (fun t => length (questions t)) ts)).
Proof.
  induction ts as [|task rest IH]; intros tIdx c t; simpl.
  - f_equal. f_equal; lia.
  - rewrite scoreQuestions_key. cbn [Js.bind]. rewrite IH.
    f_equal. f_equal; lia.
Qed.

(** With a key of the server's shape the function returns the counters
    [hitsTasks] and [num_questions]. *)
Lemma calculateScore_key (ex : Exam) (k : AnswerKey) (ua : gmap string string) :
  calculateScore (Some ex) (key_js k) ua
  = Normal (mkScore None (Some (hitsTasks ua k 0 (tasks ex))) (num_questions ex)).
Proof.
  unfold calculateScore. cbn [key_js truthy negb get_named lookup_prop].
  rewrite eqb_refl. cbn [Js.bind truthy negb].
  fold (key_js k). rewrite scoreTasks_key. reflexivity.
Qed.

Lemma hit_answered (ua : gmap string string) (k : AnswerKey) (tIdx qIdx : nat)
    (q : Question) :
  hit ua k tIdx qIdx q = true -> answered ua q = true.
Proof.
  unfold hit, answered, userAns, isHit.
  destruct (ua !! qKey q) as [s|]; [|discriminate].
  rewrite truthy_toLowerCase. intros H.
  apply andb_true_iff in H. tauto.
Qed.

Lemma hitsQuestions_le (ua : gmap string string) (k : AnswerKey) (tIdx : nat)
    (qs : list Question) :
  forall qIdx,
    hitsQuestions ua k tIdx qIdx qs
    <= length (filter (fun q => answered ua q = true) qs).
Proof.
  induction qs as [|q rest IH]; intros qIdx; simpl; [lia|].
  specialize (IH (S qIdx)). rewrite filter_cons.
  destruct (hit ua k tIdx qIdx q) eqn:Hh.
  - apply hit_answered in Hh. rewrite decide_True by exact Hh. simpl. lia.
  - destruct (decide (answered ua q = true)); simpl; lia.
Qed.

Lemma hitsTasks_le (ua : gmap string string) (k : AnswerKey) (ts : list Task) :
  forall tIdx,
    hitsTasks ua k tIdx ts
    <= list_sum (map (fun t => length (filter (fun q => answered ua q = true) (questions t))) ts).
Proof.
  induction ts as [|task rest IH]; intros tIdx; simpl; [lia|].
  specialize (IH (S tIdx)).
  pose proof (hitsQuestions_le ua k tIdx (questions task) 0). lia.
Qed.

Lemma hitsQuestions_all (ua : gmap string string) (k : AnswerKey) (tIdx : nat)
    (qs : list Question) :
  forall q0,
    (forall i q, qs !! i = Some q -> hit ua k tIdx (q0 + i) q = true) ->
    hitsQuestions ua k tIdx q0 qs = length qs.
Proof.
  induction qs as [|q rest IH]; intros q0 H; simpl; [reflexivity|].
  rewrite (IH (S q0)).
  - specialize (H 0 q eq_refl). rewrite Nat.add_0_r in H. now rewrite H.
  - intros i q' Hi. specialize (H (S i) q' Hi).
    now replace (S q0 + i) with (q0 + S i) by lia.
Qed.

Lemma hitsTasks_all (ua : gmap string string) (k : AnswerKey) (ts : list Task) :
  forall t0,
    (forall i task j q, ts !! i = Some task -> questions task !! j = Some q ->
                        hit ua k (t0 + i) j q = true) ->
    hitsTasks ua k t0 ts = list_sum (map (fun t => length (questions t)) ts).
Proof.
  induction ts as [|task rest IH]; intros t0 H; simpl; [reflexivity|].
  rewrite (IH (S t0)).
  - rewrite hitsQuestions_all; [reflexivity|].
    intros j q Hj. specialize (H 0 task j q eq_refl Hj).
    now rewrite Nat.add_0_r in H.
  - intros i task' j q Hi Hj. specialize (H (S i) task' j q Hi Hj).
    now replace (S t0 + i) with (t0 + S i) by lia.
Qed.

Lemma hitsQuestions_empty (k : AnswerKey) (tIdx : nat) (qs : list Question) :
  forall qIdx, hitsQuestions ∅ k tIdx qIdx qs = 0.
Proof.
  induction qs as [|q rest IH]; intros qIdx; simpl; [reflexivity|].
  rewrite IH. unfold hit, userAns. now rewrite lookup_empty.
Qed.

Lemma hitsTasks_empty (k : AnswerKey) (ts : list Task) :
  forall tIdx, hitsTasks ∅ k tIdx ts = 0.
Proof.
  induction ts as [|task rest IH]; intros tIdx; simpl; [reflexivity|].
  now rewrite IH, hitsQuestions_empty.
Qed.

(** A submitted answer that matches its key entry and is not blank is
    counted. *)
Lemma hit_match (ua : gmap string string) (k : AnswerKey) (tIdx qIdx : nat)
    (q : Question) (u a : string) :
  ua !! qKey q = Some u ->
  key_answer k tIdx qIdx = Some a ->
  JsString.trim u <> "" ->
  normalize u = normalize a ->
  hit ua k tIdx qIdx q = true.
Proof.
  intros Hu Ha Hne Heq. unfold hit, userAns, isHit.
  rewrite Hu, Ha. cbn [fmap option_fmap option_map].
  rewrite truthy_toLowerCase.
  apply andb_true_iff; split.
  - destruct (JsString.truthy (JsString.trim u)) eqn:E; [reflexivity|].
    apply truthy_false in E. contradiction.
  - apply eqb_true. exact Heq.
Qed.

End CalculateScoreFacts.

Section CalculateScoreClaims.

Import ExamClient Samples.

(** The sample exams have one task: a lookup among their tasks is a lookup
    of that task. *)
Ltac only_task tIdx Ht :=
  destruct tIdx as [|tIdx]; simpl in Ht; [|destruct tIdx; discriminate];
  injection Ht as <-.

(** C1 (as amended).  For every exam and stored answer key: if every
    question has a submitted answer that is not blank and that equals the
    stored key entry of its question after trimming and lower-casing, then
    [calculateScore] returns [correct] equal to [total], the number of
    questions; and for an empty submission it returns 0 correct answers
    and raises no exception. *)
Theorem calculateScore_all_matching (ex : Exam) (k : AnswerKey)
    (ua : gmap string string) :
  (allMatch ex k ua -> noneBlank ex ua ->
   calculateScore (Some ex) (key_js k) ua
   = Normal (mkScore None (Some (num_questions ex)) (num_questions ex)))
  /\ calculateScore (Some ex) (key_js k) ∅
     = Normal (mkScore None (Some 0) (num_questions ex)).
Proof.
  split.
  - intros Hm Hb. rewrite calculateScore_key.
    rewrite (hitsTasks_all ua k (tasks ex) 0); [reflexivity|].
    intros i task j q Hi Hj. simpl.
    destruct (Hm i task j q Hi Hj) as (u & a & Hu & Ha & Heq).
    destruct (Hb i task j q Hi Hj) as (u' & Hu' & Hne).
    assert (u' = u) by congruence. subst u'.
    eapply hit_match; eauto.
  - rewrite calculateScore_key. now rewrite hitsTasks_empty.
Qed.

Lemma allMatch_sample : allMatch exam2 key2 submission2.
Proof.
  intros tIdx task qIdx q Ht Hq.
  only_task tIdx Ht.
  destruct qIdx as [|[|qIdx]]; simpl in Hq; try (destruct qIdx; discriminate);
    injection Hq as <-.
  - exists "paris", " Paris ". repeat split; reflexivity.
  - exists "true ", "TRUE". repeat split; reflexivity.
Qed.

Lemma noneBlank_sample : noneBlank exam2 submission2.
Proof.
  intros tIdx task qIdx q Ht Hq.
  only_task tIdx Ht.
  destruct qIdx as [|[|qIdx]]; simpl in Hq; try (destruct qIdx; discriminate);
    injection Hq as <-.
  - exists "paris". split; [reflexivity | discriminate].
  - exists "true ". split; [reflexivity | discriminate].
Qed.

Lemma calculateScore_all_matching_witness :
  calculateScore (Some exam2) (key_js key2) submission2
  = Normal (mkScore None (Some 2) 2).
Proof.
  apply (proj1 (calculateScore_all_matching exam2 key2 submission2)).
  - exact allMatch_sample.
  - exact noneBlank_sample.
Defined.

(** C1 as stated fails: the empty string matches an empty key entry after
    trimming and lower-casing, yet the question is not counted. *)
Lemma calculateScore_blank_match_not_counted :
  allMatch exam1 blankKey blankSubmission /\
  calculateScore (Some exam1) (key_js blankKey) blankSubmission
  = Normal (mkScore None (Some 0) 1).
Proof.
  split; [|reflexivity].
  intros tIdx task qIdx q Ht Hq.
  only_task tIdx Ht.
  destruct qIdx as [|qIdx]; simpl in Hq; [|destruct qIdx; discriminate].
  injection Hq as <-.
  exists "", "". repeat split; reflexivity.
Qed.

(** C8 (as amended).  For every exam and every answer key of the server's
    shape, in which any task entry, answer entry or [answer] field may be
    missing, and also when no key has been loaded, [calculateScore]
    returns without throwing; its [total] is the number of questions of
    the exam when a key is loaded and 0 when none is; and a question whose
    submitted answer is absent, empty or blank is never counted: the test
    [userAns && userAns === correctAns] fails for it whatever the key
    holds, so [correct] is at most the number of answered questions. *)
Theorem calculateScore_total (ex : Exam) (k : option AnswerKey)
    (ua : gmap string string) :
  exists r,
    calculateScore (Some ex) (answers_js k) ua = Normal r /\
    total r = match k with Some _ => num_questions ex | None => 0 end /\
    match correct r with
    | Some c => c <= num_answered ua ex
    | None => True
    end /\
    forall q c, isHit (userAns ua q) c && negb (answered ua q) = false.
Proof.
  assert (Hq : forall q c, isHit (userAns ua q) c && negb (answered ua q) = false).
  { intros q c. unfold isHit, userAns, answered.
    destruct (ua !! qKey q) as [s|]; [|reflexivity].
    rewrite truthy_toLowerCase.
    destruct (JsString.truthy (JsString.trim s)); [apply andb_false_r | reflexivity]. }
  destruct k as [k|]; simpl.
  - rewrite calculateScore_key. eexists; split; [reflexivity|]. simpl.
    split; [reflexivity|]. split; [apply hitsTasks_le | exact Hq].
  - eexists; split; [reflexivity|]. simpl. auto.
Qed.

(** C8 as stated fails: before a key is loaded the early return reports a
    total of 0 for an exam that has one question. *)
Lemma calculateScore_no_key_total :
  calculateScore (Some exam1) (answers_js None) blankSubmission
  = Normal (mkScore (Some 0) None 0)
  /\ num_questions exam1 = 1.
Proof. split; reflexivity. Qed.

(** A key whose task entry has no [answers] array makes the optional chain
    read an index of [undefined]. *)
Lemma calculateScore_throws_without_answers :
  calculateScore (Some exam1) keyWithoutAnswers ∅ = Throw.
Proof. reflexivity. Qed.

(** An absent or empty entry never makes a question answered. *)
Lemma answered_absent_or_empty (ua : gmap string string) (q : Question) :
  ua !! qKey q = None \/ ua !! qKey q = Some "" -> answered ua q = false.
Proof. unfold answered. intros [-> | ->]; reflexivity. Qed.

End CalculateScoreClaims.

(* ===================================================================== *)
(** * Status polling *)
(* ===================================================================== *)

Section PollingFacts.

Import CreateExam Samples.
Local Open Scope Z_scope.

(** What one poll does to the progress shown. *)
Lemma pollStatus_progress (st : PollState) (r : option ExamStatus) :
  progress (pollStatus st r)
  = match r with
    | None => progress st
    | Some s =>
        if JsString.eqb (status s) "failed" then progress st
        else if JsString.eqb (status s) "completed" then 100
        else Z.max (progress st) (progressOr0 s)
    end.
Proof.
  destruct r as [s|]; [|reflexivity]. unfold pollStatus.
  destruct (JsString.eqb (status s) "failed"); [reflexivity|].
  destruct (JsString.eqb (status s) "completed"); reflexivity.
Qed.

Lemma pollStatus_bounds (st : PollState) (r : option ExamStatus) :
  progress st <= 100 -> reportedAtMost 100 r ->
  progress st <= progress (pollStatus st r) <= 100.
Proof.
  intros Hst Hr. rewrite pollStatus_progress.
  destruct r as [s|]; [|lia]. simpl in Hr.
  destruct (JsString.eqb (status s) "failed"); [lia|].
  destruct (JsString.eqb (status s) "completed"); lia.
Qed.

Lemma ticks_sorted (rs : list (option ExamStatus)) :
  forall st,
    progress st <= 100 -> Forall (reportedAtMost 100) rs ->
    Sorted Z.le (progress st :: map progress (ticks st rs)).
Proof.
  induction rs as [|r rest IH]; intros st Hst Hrs; simpl.
  - repeat constructor.
  - destruct (intervalRunning st); [|repeat constructor].
    inversion Hrs as [|? ? Hr Hrest]; subst.
    destruct (pollStatus_bounds st r Hst Hr) as [Hle Hmax].
    simpl. constructor.
    + apply IH; assumption.
    + constructor. exact Hle.
Qed.

(** C2 (as amended).  For every sequence of status polls of one generation
    request in which no reported progress exceeds 100, the progress shown
    never decreases from one observation to the next.  After a poll that
    observes a stage in flight the progress shown is the maximum of the
    one shown before and the one polled (a missing one counting as 0); a
    poll that observes [failed], or whose request fails, leaves it as it
    was; a poll that observes [completed] sets it to 100. *)
Theorem shown_progress_never_decreases (rs : list (option ExamStatus)) :
  Forall (reportedAtMost 100) rs ->
  Sorted Z.le (shownProgress pollingStart rs)
  /\ forall st r,
       progress (pollStatus st r)
       = match r with
         | None => progress st
         | Some s =>
             if JsString.eqb (status s) "failed" then progress st
             else if JsString.eqb (status s) "completed" then 100
             else Z.max (progress st) (progressOr0 s)
         end.
Proof.
  intros Hrs. split.
  - unfold shownProgress, polling.
    destruct rs as [|r rest]; [repeat constructor|].
    inversion Hrs as [|? ? Hr Hrest]; subst.
    assert (H20 : progress pollingStart <= 100) by (simpl; lia).
    destruct (pollStatus_bounds pollingStart r H20 Hr) as [Hle Hmax].
    cbn [map]. constructor.
    + apply (ticks_sorted rest (setInterval (pollStatus pollingStart r))); assumption.
    + constructor. exact Hle.
  - exact pollStatus_progress.
Qed.

Lemma shown_progress_never_decreases_witness :
  Sorted Z.le (shownProgress pollingStart
                 [Some generatingAt70; None; Some completedAt100]).
Proof.
  apply (shown_progress_never_decreases [Some generatingAt70; None; Some completedAt100]).
  repeat (apply Forall_cons_2; [vm_compute; try exact I; discriminate|]).
  apply Forall_nil_2.
Defined.

(** C2 as stated fails on terminal polls: a poll that observes [failed]
    with progress 60 leaves the 20 shown before instead of the maximum 60,
    and a [completed] poll after a reported 150 brings the progress shown
    down to 100. *)
Lemma shown_progress_not_always_max :
  progress (pollStatus pollingStart (Some failedAt60)) = 20
  /\ Z.max (progress pollingStart) (progressOr0 failedAt60) = 60
  /\ shownProgress pollingStart [Some generatingAt150; Some completedAt100]
     = [20; 150; 100].
Proof. repeat split. Qed.

(** A poll that observes [failed] marks processing finished and shows the
    server's message, or the fixed text when there is none. *)
Lemma pollStatus_failed (st : PollState) (s : ExamStatus) :
  status s = "failed" ->
  let st' := pollStatus st (Some s) in
  isProcessing st' = false
  /\ error st' = Some (match message s with
                       | Some (String c m) => String c m
                       | _ => "Generation failed"
                       end)
  /\ (pollInterval st = true -> intervalRunning st' = false).
Proof.
  intros Hs. unfold pollStatus. rewrite Hs. change (JsString.eqb "failed" "failed") with true.
  cbn. repeat split.
  - destruct (message s) as [[|c m]|]; reflexivity.
  - unfold clearIfSet. now intros ->.
Qed.

(** C4: the first poll runs before [pollInterval] holds a timer, so a
    failure it observes clears nothing; the timer is installed afterwards
    and a second poll is issued. *)
Lemma first_poll_failed_keeps_polling :
  intervalRunning (setInterval (pollStatus pollingStart (Some failedAt60))) = true
  /\ length (polling pollingStart [Some failedAt60; Some failedAt60; Some failedAt60])
     = 2%nat.
Proof. split; reflexivity. Qed.

End PollingFacts.

(* ===================================================================== *)
(** * Exam configuration *)
(* ===================================================================== *)

Section ConfigFacts.

Import CreateExam Samples.
Local Open Scope Z_scope.

(** The mount effect of [ExamConfig] finds nothing to fill in. *)
Lemma afterMount_initial : afterMount initialExamConfig = initialExamConfig.
Proof. reflexivity. Qed.

(** C7.  Every generation request issued while the configuration is the
    one the page starts with carries [passage_type = 1],
    [total_questions = 14] and [num_question_types = 3]: three groups with
    14 questions in all, as in the default 5-4-5 split. *)
Theorem default_generation_request (src : Source) (createSession : option string)
    (session_id : string) (req : GenerateRequest) :
  handleProcess src (reconfigure (afterMount initialExamConfig) []) createSession
  = Some (session_id, req) ->
  req = mkRequest 1 14 3
  /\ total_questions req = 5 + 4 + 5
  /\ num_question_types req = Z.of_nat (length [5; 4; 5]).
Proof.
  unfold handleProcess. rewrite afterMount_initial. cbn [reconfigure fold_left].
  destruct (negb (bool_decide (is_Some (file src))) && negb (JsString.truthy (fileUrl src)));
    [discriminate|].
  destruct createSession as [sid|]; [|discriminate].
  intros H. injection H as _ <-. repeat split.
Qed.

Lemma default_generation_request_witness :
  mkRequest 1 14 3 = mkRequest 1 14 3
  /\ total_questions (mkRequest 1 14 3) = 5 + 4 + 5
  /\ num_question_types (mkRequest 1 14 3) = Z.of_nat (length [5; 4; 5]).
Proof.
  apply (default_generation_request pdfSource (Some "3f2a") "3f2a" (mkRequest 1 14 3)).
  reflexivity.
Defined.

End ConfigFacts.

(* ===================================================================== *)
(** * Question components *)
(* ===================================================================== *)

Section TaskFacts.

Import Tasks Samples.

Lemma correctOf_entry (correctAnswers : list JsVal) (index : nat) (k : string)
    (props : list (string * JsVal)) :
  correctAnswers !! index = Some (JObj props) ->
  lookup_prop "answer" props = JStr k ->
  correctOf (JArr correctAnswers) index = Normal (JStr k).
Proof.
  intros Hi Hk. unfold correctOf. cbn [nullish get_index Js.bind].
  replace (nth index correctAnswers JUndef) with (JObj props).
  - cbn. now rewrite Hk.
  - revert index Hi. induction correctAnswers as [|x l IH]; intros [|i] Hi;
      simpl in *; try discriminate; [congruence | now apply IH].
Qed.

(** The five components that read the key entry at the question's index.
    After submission, for a key entry that holds a string: a short-answer
    or sentence-completion question is shown correct exactly when the
    submitted answer equals the entry after trimming and lower-casing
    both; a true/false, multiple-choice or matching-headings question is
    shown correct exactly when the submitted answer is the very string of
    the entry. *)
Theorem isCorrect_by_component (c : Component) (answers : gmap string string)
    (correctAnswers : list JsVal) (q : Question) (index : nat) (k : string)
    (props : list (string * JsVal)) :
  correctAnswers !! index = Some (JObj props) ->
  lookup_prop "answer" props = JStr k ->
  isCorrect c true answers (JArr correctAnswers) q index
  = Normal (match c with
            | ShortAnswerTask | SentenceCompletionTask =>
                bool_decide (ExamClient.normalize (currentAnswerOf answers q)
                             = ExamClient.normalize k)
            | TrueFalseTask | MultipleChoiceTask | MatchingHeadingsTask =>
                bool_decide (currentAnswerOf answers q = k)
            end).
Proof.
  intros Hi Hk. unfold isCorrect.
  rewrite (correctOf_entry correctAnswers index k props Hi Hk). cbn [Js.bind].
  unfold ExamClient.normalize.
  destruct c; cbn [matches exactMatch looseMatch str_strict_eq nullish call_toLowerCase Js.bind];
    try reflexivity; now rewrite !trim_toLowerCase.
Qed.

Lemma isCorrect_by_component_witness :
  isCorrect ShortAnswerTask true {[ "q-1" := " TRUE" ]} lowerCaseKey (mkQuestion 1) 0
  = Normal true.
Proof.
  exact (isCorrect_by_component ShortAnswerTask {[ "q-1" := " TRUE" ]}
           [JObj [("answer", JStr "true")]] (mkQuestion 1) 0 "true"
           [("answer", JStr "true")] eq_refl eq_refl).
Defined.

(** The true/false component compares exactly: the answer [TRUE] equals
    the key entry [true] after trimming and lower-casing, yet the
    question is shown incorrect. *)
Lemma trueFalse_compares_exactly :
  ExamClient.normalize (currentAnswerOf {[ "q-6" := "TRUE" ]} (mkQuestion 6))
  = ExamClient.normalize "true"
  /\ isCorrect TrueFalseTask true {[ "q-6" := "TRUE" ]} lowerCaseKey (mkQuestion 6) 0
     = Normal false.
Proof. split; reflexivity. Qed.

(** One click either leaves an entry as it was or stores an option. *)
Lemma onClick_lookup (task : Task) (isSubmitted : bool) (answers : gmap string string)
    (ev : Click) (key value : string) :
  onClick task isSubmitted answers ev !! key = Some value ->
  answers !! key = Some value \/ value ∈ options task.
Proof.
  unfold onClick, setAnswer.
  destruct (questions task !! click_question ev) as [q|]; [|now left].
  destruct (options task !! click_option ev) as [opt|] eqn:Ho; [|now left].
  destruct isSubmitted; [now left|].
  destruct (decide (qKey q = key)) as [<-|Hne].
  - rewrite lookup_insert_eq. intros [= <-]. right.
    eapply list_elem_of_lookup_2. exact Ho.
  - rewrite lookup_insert_ne by exact Hne. now left.
Qed.

Lemma clicks_lookup (task : Task) (evs : list (bool * Click)) :
  forall (answers : gmap string string) (key value : string),
    clicks task answers evs !! key = Some value ->
    answers !! key = Some value \/ value ∈ options task.
Proof.
  unfold clicks.
  induction evs as [|ev rest IH]; intros answers key value H; simpl in H.
  - now left.
  - apply IH in H. destruct H as [H|H]; [|now right].
    eapply onClick_lookup. exact H.
Qed.

(** C6.  Whatever buttons of a True/False/Not Given task are clicked,
    starting with no answers, every value recorded is one of [TRUE],
    [FALSE], [NOT GIVEN], or one of [YES], [NO], [NOT GIVEN] when the task
    key contains [yes_no] or the instruction contains [yes]. *)
Theorem trueFalse_records_only_options (task : Task) (evs : list (bool * Click))
    (key value : string) :
  clicks task ∅ evs !! key = Some value ->
  if isYesNo task
  then value ∈ ["YES"; "NO"; "NOT GIVEN"]
  else value ∈ ["TRUE"; "FALSE"; "NOT GIVEN"].
Proof.
  intros H. apply clicks_lookup in H. destruct H as [H|H].
  - rewrite lookup_empty in H. discriminate.
  - unfold options in H. destruct (isYesNo task); exact H.
Qed.

Lemma trueFalse_records_only_options_witness :
  "FALSE" ∈ ["TRUE"; "FALSE"; "NOT GIVEN"].
Proof.
  apply (trueFalse_records_only_options tfTask
           [(false, mkClick 0 0); (false, mkClick 0 1); (true, mkClick 0 2)]
           "q-6" "FALSE").
  reflexivity.
Defined.

End TaskFacts.

(* ===================================================================== *)
(** * File upload *)
(* ===================================================================== *)

Section FileUploadFacts.

Import FileUpload Samples.

Lemma accept_pdf (st : State) (f : File) :
  type f = "application/pdf" ->
  accept st f = (mkState (dragActive st) (Some f) (fileUrl st) (uploadMethod st),
                 [OnFileSelected (Some f) "" MethodFile]).
Proof. intros H. unfold accept. now rewrite H. Qed.

Lemma accept_other (st : State) (f : File) :
  type f <> "application/pdf" ->
  accept st f = (st, [Alert "Please upload a PDF file"]).
Proof.
  intros H. unfold accept.
  destruct (JsString.eqb (type f) "application/pdf") eqn:E; [|reflexivity].
  apply eqb_true in E. contradiction.
Qed.

Lemma accept_forwarded (st : State) (f g : File) :
  g ∈ forwarded (snd (accept st f)) -> g = f /\ type g = "application/pdf".
Proof.
  unfold accept.
  destruct (JsString.eqb (type f) "application/pdf") eqn:E; simpl.
  - apply eqb_true in E. intros H. apply list_elem_of_singleton in H. now subst.
  - intros H. inversion H.
Qed.

(** C9.  A handler run of the file picker or of the drop area forwards a
    file only when it is the first file of the event and its MIME type is
    exactly [application/pdf]; for a first file of any other type the
    selection stays as it was and [onFileSelected] is not called. *)
Theorem upload_forwards_only_pdf (h : Handler) (disabled : bool) (st : State)
    (files : option (list File)) :
  (forall g, g ∈ forwarded (snd (handle h disabled st files)) ->
             firstFile files = Some g /\ type g = "application/pdf")
  /\ (forall f, firstFile files = Some f -> type f <> "application/pdf" ->
                file (fst (handle h disabled st files)) = file st
                /\ callbacks (snd (handle h disabled st files)) = []).
Proof.
  split.
  - intros g. destruct h; simpl; unfold handleDrop, handleFileChange;
      destruct disabled; simpl; try (intros H; inversion H; fail);
      destruct (firstFile files) as [f|]; simpl; try (intros H; inversion H; fail);
      intros H; apply accept_forwarded in H; destruct H as [-> Ht]; auto.
  - intros f Hf Ht. destruct h; simpl; unfold handleDrop, handleFileChange;
      destruct disabled; simpl; auto; rewrite Hf, (accept_other _ f Ht); simpl; auto.
Qed.

Lemma upload_forwards_only_pdf_witness :
  file (fst (handle OnDrop false emptyUpload (Some [wordFile; pdfFile]))) = file emptyUpload
  /\ callbacks (snd (handle OnDrop false emptyUpload (Some [wordFile; pdfFile]))) = [].
Proof.
  apply (proj2 (upload_forwards_only_pdf OnDrop false emptyUpload (Some [wordFile; pdfFile]))
           wordFile).
  - reflexivity.
  - discriminate.
Defined.

(** A PDF is taken as the selection and forwarded. *)
Lemma upload_forwards_pdf (h : Handler) (st : State) (f : File) (rest : list File) :
  type f = "application/pdf" ->
  file (fst (handle h false st (Some (f :: rest)))) = Some f
  /\ forwarded (snd (handle h false st (Some (f :: rest)))) = [f].
Proof.
  intros Ht. destruct h; simpl; unfold handleDrop, handleFileChange; simpl;
    rewrite accept_pdf by exact Ht; split; reflexivity.
Qed.

End FileUploadFacts.

(* ===================================================================== *)
(** * Session list *)
(* ===================================================================== *)

Section SessionListFacts.

Import SessionList.


(** Without confirmation nothing is deleted. *)
Lemma handleDelete_cancelled (sessions : list SessionInfo) (id : string) (deleted : bool) :
  handleDelete sessions id false deleted = sessions.
Proof. reflexivity. Qed.

End SessionListFacts.

(* ===================================================================== *)
(** * Generation requests *)
(* ===================================================================== *)

Section GenerationFacts.

Import GenerationService.

Lemma active_advance (sid : string) (j : GenerationJob) :
  active sid (advance j) = true -> active sid j = true.
Proof.
  unfold active, advance. destruct j as [s st]; simpl.
  destruct (JsString.eqb s sid); [|discriminate]. destruct st; auto.
Qed.

Lemma active_fail (sid : string) (j : GenerationJob) :
  active sid (fail j) = true -> active sid j = true.
Proof.
  unfold active, fail. destruct j as [s st]; simpl.
  destruct (JsString.eqb s sid); [|discriminate]. destruct st; auto.
Qed.

(** Rewriting one job in a way that cannot activate it does not add
    active jobs. *)
Lemma filter_alter_le (f : GenerationJob -> GenerationJob) (P : GenerationJob -> bool) :
  (forall j, P (f j) = true -> P j = true) ->
  forall n l, length (List.filter P (alter f n l)) <= length (List.filter P l).
Proof.
  intros Hf n l. revert n. induction l as [|x l IH]; intros [|n]; cbn; try lia.
  - destruct (P (f x)) eqn:E.
    + rewrite (Hf x E). simpl. lia.
    + destruct (P x); simpl; lia.
  - specialize (IH n). destruct (P x); simpl; lia.
Qed.

Lemma In_alter_session (f : GenerationJob -> GenerationJob) :
  (forall j, job_session (f j) = job_session j) ->
  forall n l j, In j (alter f n l) -> exists j', In j' l /\ job_session j' = job_session j.
Proof.
  intros Hf n l. revert n. induction l as [|x l IH]; intros [|n] j H; cbn in *;
    try contradiction.
  - destruct H as [Hj|H].
    + exists x. split; [now left | now rewrite <- Hj, Hf].
    + exists j. split; [now right | reflexivity].
  - destruct H as [Hj|H].
    + exists j. split; [now left | reflexivity].
    + destruct (IH n j H) as (j' & Hin & Hs). exists j'. split; [now right | exact Hs].
Qed.

Lemma existsb_false_filter (P : GenerationJob -> bool) (l : list GenerationJob) :
  existsb P l = false -> List.filter P l = [].
Proof.
  induction l as [|x l IH]; simpl; [reflexivity|].
  destruct (P x); simpl; [discriminate | exact IH].
Qed.

Lemma filter_nonempty_existsb (P : GenerationJob -> bool) (l : list GenerationJob) :
  List.filter P l <> [] -> existsb P l = true.
Proof.
  intros H. destruct (existsb P l) eqn:E; [reflexivity|].
  apply existsb_false_filter in E. contradiction.
Qed.

Lemma known_cons (sid s : string) (svc : Service) :
  known sid svc = true -> known sid (mkService (s :: sessions svc) (jobs svc)) = true.
Proof. unfold known. simpl. intros ->. apply orb_true_r. Qed.

Lemma step_wellFormed (svc : Service) (ev : Event) :
  wellFormed svc -> wellFormed (step svc ev).
Proof.
  intros [Hone Hknown]. destruct ev as [sid|sid|n|n]; simpl.
  - split; [exact Hone|]. intros j Hj. apply known_cons. now apply Hknown.
  - unfold requestGeneration.
    destruct (known sid svc) eqn:Hk; simpl; [|split; assumption].
    destruct (existsb (active sid) (jobs svc)) eqn:He; simpl; [split; assumption|].
    split.
    + intros sid'. unfold activeJobs. simpl.
      destruct (active sid' (mkJob sid queued)) eqn:Ha.
      * unfold active in Ha. simpl in Ha. rewrite andb_true_r in Ha.
        apply eqb_true in Ha. subst sid'.
        rewrite (existsb_false_filter _ _ He). simpl. lia.
      * apply Hone.
    + intros j [<-|Hj]; [exact Hk | now apply Hknown].
  - split.
    + intros sid. unfold activeJobs. simpl.
      pose proof (filter_alter_le advance (active sid) (active_advance sid) n (jobs svc)).
      specialize (Hone sid). unfold activeJobs in Hone. lia.
    + intros j Hj. simpl in Hj.
      destruct (In_alter_session advance (fun _ => eq_refl) n _ j Hj) as (j' & Hin & Hs).
      rewrite <- Hs. now apply Hknown.
  - split.
    + intros sid. unfold activeJobs. simpl.
      pose proof (filter_alter_le fail (active sid) (active_fail sid) n (jobs svc)).
      specialize (Hone sid). unfold activeJobs in Hone. lia.
    + intros j Hj. simpl in Hj.
      destruct (In_alter_session fail (fun _ => eq_refl) n _ j Hj) as (j' & Hin & Hs).
      rewrite <- Hs. now apply Hknown.
Qed.

Lemma run_wellFormed (evs : list Event) : wellFormed (run evs).
Proof.
  unfold run.
  assert (H : forall svc, wellFormed svc -> wellFormed (fold_left step evs svc)).
  { induction evs as [|ev rest IH]; intros svc Hsvc; simpl; [exact Hsvc|].
    apply IH. now apply step_wellFormed. }
  apply H. split; [intros sid; simpl; lia | intros j []].
Qed.

(** C3.  In every state the server can reach, a session has at most one
    active generation job; and a generation request for a session whose
    job is in a non-terminal stage is rejected with [JobAlreadyRunning]
    and leaves the state, and so the jobs, as they were. *)
Theorem second_request_rejected (evs : list Event) (sid : string) :
  activeJobs sid (run evs) <> [] ->
  requestGeneration sid (run evs) = (Rejected JobAlreadyRunning, run evs)
  /\ forall sid', length (activeJobs sid' (run evs)) <= 1.
Proof.
  intros Hact. destruct (run_wellFormed evs) as [Hone Hknown]. split; [|exact Hone].
  unfold requestGeneration.
  assert (Hk : known sid (run evs) = true).
  { unfold activeJobs in Hact.
    destruct (List.filter (active sid) (jobs (run evs))) as [|j l] eqn:E; [contradiction|].
    assert (Hj : In j (List.filter (active sid) (jobs (run evs)))) by (rewrite E; now left).
    apply filter_In in Hj. destruct Hj as [Hin Ha].
    unfold active in Ha. apply andb_true_iff in Ha. destruct Ha as [Hs _].
    apply eqb_true in Hs. subst sid. now apply Hknown. }
  rewrite Hk. simpl.
  now rewrite (filter_nonempty_existsb _ _ Hact).
Qed.

Lemma second_request_rejected_witness :
  requestGeneration "s-1" (run [CreateSession "s-1"; RequestGeneration "s-1"; Advance 0])
  = (Rejected JobAlreadyRunning,
     run [CreateSession "s-1"; RequestGeneration "s-1"; Advance 0])
  /\ forall sid',
       length (activeJobs sid' (run [CreateSession "s-1"; RequestGeneration "s-1"; Advance 0]))
       <= 1.
Proof.
  apply (second_request_rejected
           [CreateSession "s-1"; RequestGeneration "s-1"; Advance 0] "s-1").
  discriminate.
Defined.

(** Once the job has reached a terminal stage a new request is accepted. *)
Lemma request_after_failure_accepted :
  fst (requestGeneration "s-1"
         (run [CreateSession "s-1"; RequestGeneration "s-1"; Fail 0]))
  = Accepted.
Proof. reflexivity. Qed.

End GenerationFacts.

(* ===================================================================== *)
(** * The clock of the exam page *)
(* ===================================================================== *)

Section FormatTimeFacts.

Import ExamTimer.
Local Open Scope Z_scope.

Lemma length_append (a b : string) :
  String.length (a +:+ b) = (String.length a + String.length b)%nat.
Proof. induction a as [|c a IH]; simpl; [reflexivity | now rewrite IH]. Qed.

(** Two strings that end in suffixes of one length split alike. *)
Lemma append_inj_suffix (a b x y : string) :
  String.length x = String.length y ->
  a +:+ x = b +:+ y -> a = b /\ x = y.
Proof.
  intros Hlen. revert b. induction a as [|c a IH]; intros [|d b] H; simpl in H.
  - auto.
  - apply (f_equal String.length) in H. rewrite !length_append in H. simpl in H. lia.
  - apply (f_equal String.length) in H. rewrite !length_append in H. simpl in H. lia.
  - injection H as -> H. destruct (IH b H) as [-> ->]. auto.
Qed.

Lemma pretty_nonneg_no_dash (m : Z) (rest s : string) :
  0 <= m -> pretty m +:+ ":" +:+ rest <> "-" +:+ s.
Proof.
  intros Hm H. destruct (pretty m) as [|c p] eqn:E; simpl in H; [discriminate|].
  injection H as -> H.
  destruct m as [|q|q]; [discriminate E | | lia].
  unfold pretty, pretty_Z, pretty, pretty_positive, pretty, pretty_N in E.
  destruct (decide (N.pos q = 0%N)); [discriminate|].
  now apply (pretty_N_go_ne_dash (N.pos q) "" p) in E.
Qed.

(** The two characters after the colon. *)
Lemma seconds_field_check :
  forallb (fun i =>
    Nat.eqb (String.length ((if i <? 10 then "0" else "") +:+ pretty i)) 2
    && forallb (fun j =>
         implb (String.eqb ((if i <? 10 then "0" else "") +:+ pretty i)
                           ((if j <? 10 then "0" else "") +:+ pretty j))
               (i =? j))
         (map Z.of_nat (seq 0 60)))
    (map Z.of_nat (seq 0 60)) = true.
Proof. vm_compute. reflexivity. Qed.

Lemma in_minute (s : Z) : 0 <= s < 60 -> In s (map Z.of_nat (seq 0 60)).
Proof.
  intros H. replace s with (Z.of_nat (Z.to_nat s)) by lia.
  apply in_map, in_seq. lia.
Qed.

Lemma seconds_field_length (s : Z) :
  0 <= s < 60 ->
  String.length ((if s <? 10 then "0" else "") +:+ pretty s) = 2%nat.
Proof.
  intros H. pose proof seconds_field_check as C.
  rewrite forallb_forall in C. specialize (C s (in_minute s H)).
  apply andb_true_iff in C. destruct C as [C _]. now apply Nat.eqb_eq in C.
Qed.

Lemma seconds_field_inj (s t : Z) :
  0 <= s < 60 -> 0 <= t < 60 ->
  (if s <? 10 then "0" else "") +:+ pretty s = (if t <? 10 then "0" else "") +:+ pretty t ->
  s = t.
Proof.
  intros Hs Ht E. pose proof seconds_field_check as C.
  rewrite forallb_forall in C. specialize (C s (in_minute s Hs)).
  apply andb_true_iff in C. destruct C as [_ C].
  rewrite forallb_forall in C. specialize (C t (in_minute t Ht)).
  rewrite E, String.eqb_refl in C. simpl in C. now apply Z.eqb_eq in C.
Qed.

(** The text without its sign determines the absolute value. *)
Lemma clock_text_inj (a b : Z) :
  0 <= a -> 0 <= b ->
  pretty (a / 60) +:+ ":" +:+ (if a mod 60 <? 10 then "0" else "") +:+ pretty (a mod 60)
  = pretty (b / 60) +:+ ":" +:+ (if b mod 60 <? 10 then "0" else "") +:+ pretty (b mod 60) ->
  a = b.
Proof.
  intros Ha Hb E.
  pose proof (Z.mod_pos_bound a 60 ltac:(lia)) as Ma.
  pose proof (Z.mod_pos_bound b 60 ltac:(lia)) as Mb.
  apply append_inj_suffix in E.
  - destruct E as [Em Es]. apply (inj pretty) in Em.
    injection Es as Es. apply seconds_field_inj in Es; [|assumption..].
    rewrite (Z.div_mod a 60), (Z.div_mod b 60) by lia. lia.
  - rewrite !(length_append ":"). now rewrite !seconds_field_length.
Qed.

(** X1.  [formatTime] shows different times differently, and what follows
    its colon is always two characters long. *)
Theorem formatTime_inj (a b : Z) :
  (formatTime a = formatTime b -> a = b)
  /\ exists pre ss, formatTime a = pre +:+ ":" +:+ ss /\ String.length ss = 2%nat.
Proof.
  split.
  - unfold formatTime. intros E.
    destruct (Z.ltb_spec a 0) as [Ha|Ha], (Z.ltb_spec b 0) as [Hb|Hb]; simpl in E.
    + injection E as E. apply clock_text_inj in E; lia.
    + symmetry in E. apply pretty_nonneg_no_dash in E; [contradiction|].
      apply Z.div_pos; lia.
    + apply pretty_nonneg_no_dash in E; [contradiction|]. apply Z.div_pos; lia.
    + apply clock_text_inj in E; lia.
  - unfold formatTime.
    exists ((if a <? 0 then "-" else "") +:+ pretty (Z.abs a / 60)),
           ((if Z.abs a mod 60 <? 10 then "0" else "") +:+ pretty (Z.abs a mod 60)).
    split.
    + destruct (a <? 0); reflexivity.
    + apply seconds_field_length. apply Z.mod_pos_bound. lia.
Qed.

Lemma formatTime_inj_witness : (-75 : Z) = -75.
Proof.
  apply (proj1 (formatTime_inj (-75) (-75))). reflexivity.
Defined.

End FormatTimeFacts.

Section TimerFacts.

Import ExamTimer.
Local Open Scope Z_scope.

(** What holds of the clock after the effect of every render. *)
Lemma step_keeps (st : TimerState) (ev : TimerEvent) :
  (0 <= timeLeft st \/ isOvertime st = true) ->
  timeLeft st <= 1200 ->
  (showTimeUpModal st = false
   \/ (timeLeft st = 0 /\ timerActive st = false /\ isOvertime st = false)) ->
  (0 <= timeLeft (step st ev) \/ isOvertime (step st ev) = true)
  /\ timeLeft (step st ev) <= 1200
  /\ (showTimeUpModal (step st ev) = false
      \/ (timeLeft (step st ev) = 0 /\ timerActive (step st ev) = false
          /\ isOvertime (step st ev) = false)).
Proof.
  destruct st as [t a s o m]. simpl. intros Hneg Hmax Hmodal.
  unfold step, timerEffect, timeIsUp, handle, tick, counting, setTimerActive,
    handleContinueExam, handleSubmit.
  destruct ev as [| | | |c]; try destruct c; destruct a, s, o, m; simpl;
    repeat match goal with
           | |- context [?x =? 0] => destruct (Z.eqb_spec x 0); simpl
           end;
    repeat split; simpl;
    try (destruct Hneg as [?|?]; [|discriminate]);
    try (destruct Hmodal as [?|(? & ? & ?)]; try discriminate);
    try lia; auto;
    try (right; repeat split; auto; lia);
    try (left; lia).
Qed.

(** X2.  However the buttons are clicked and the interval fires, the time
    left stays at or below the twenty minutes it starts with and falls
    below zero only in overtime; and while the time-up dialog is shown the
    clock stands at zero, stopped, and overtime has not begun. *)
Theorem timer_invariants (evs : list TimerEvent) :
  (0 <= timeLeft (run evs) \/ isOvertime (run evs) = true)
  /\ timeLeft (run evs) <= 1200
  /\ (showTimeUpModal (run evs) = false
      \/ (timeLeft (run evs) = 0 /\ timerActive (run evs) = false
          /\ isOvertime (run evs) = false)).
Proof.
  unfold run.
  induction evs as [|ev evs IH] using rev_ind.
  - simpl. repeat split; auto; lia.
  - rewrite fold_left_app. simpl.
    destruct IH as (H1 & H2 & H3). now apply step_keeps.
Qed.

Lemma step_after_submit (st : TimerState) (ev : TimerEvent) :
  isSubmitted st = true -> timeIsUp st = false ->
  isSubmitted (step st ev) = true /\ timeLeft (step st ev) = timeLeft st
  /\ timeIsUp (step st ev) = false.
Proof.
  destruct st as [t a s o m]. simpl. intros -> _.
  unfold step, timerEffect, timeIsUp, handle, tick, counting, setTimerActive,
    handleContinueExam, handleSubmit.
  destruct ev as [| | | |c]; simpl; rewrite ?andb_false_r; simpl;
    try (destruct m; simpl; rewrite ?andb_false_r; simpl);
    try (destruct c; simpl; rewrite ?andb_false_r; simpl);
    auto using andb_false_r.
Qed.

(** X3.  Once the exam is submitted it stays submitted and the time left
    never changes again, whatever is clicked and however often the
    interval fires. *)
Theorem submitted_clock_is_frozen (st : TimerState) (evs : list TimerEvent) :
  isSubmitted st = true ->
  isSubmitted (fold_left step evs st) = true
  /\ timeLeft (fold_left step evs st) = timeLeft st.
Proof.
  intros Hs.
  assert (H : forall st', isSubmitted st' = true ->
                          isSubmitted (fold_left step evs st') = true
                          /\ timeLeft (fold_left step evs st') = timeLeft st').
  { induction evs as [|ev evs IH]; intros st' Hs'; simpl; [auto|].
    assert (Hup : timeIsUp st' = false).
    { unfold timeIsUp. rewrite Hs'. now destruct (timerActive st'). }
    destruct (step_after_submit st' ev Hs' Hup) as (H1 & H2 & _).
    destruct (IH _ H1) as [H3 H4]. split; [exact H3 | congruence]. }
  now apply H.
Qed.

Lemma submitted_clock_is_frozen_witness :
  isSubmitted (fold_left step [IntervalFires; ClickStart; IntervalFires; ClickContinue]
                 (run [ClickStart; IntervalFires; ClickSubmit true])) = true
  /\ timeLeft (fold_left step [IntervalFires; ClickStart; IntervalFires; ClickContinue]
                 (run [ClickStart; IntervalFires; ClickSubmit true]))
     = timeLeft (run [ClickStart; IntervalFires; ClickSubmit true]).
Proof.
  apply (submitted_clock_is_frozen (run [ClickStart; IntervalFires; ClickSubmit true])).
  reflexivity.
Defined.

Lemma run_snoc (evs : list TimerEvent) (ev : TimerEvent) :
  run (evs ++ [ev])%list = step (run evs) ev.
Proof. unfold run. now rewrite fold_left_app. Qed.

(** X4.  Started once and left alone, the clock shows 1200 - n seconds
    after n firings of the interval; at the 1200th it stops at zero and
    opens the time-up dialog, and further firings change nothing. *)
Theorem countdown_reaches_zero (n : nat) :
  run (ClickStart :: repeat IntervalFires n)
  = if Nat.ltb n 1200
    then mkTimer (1200 - Z.of_nat n) true false false false
    else mkTimer 0 false false false true.
Proof.
  induction n as [|n IH].
  - reflexivity.
  - replace (ClickStart :: repeat IntervalFires (S n))
      with ((ClickStart :: repeat IntervalFires n) ++ [IntervalFires])%list
      by (simpl; f_equal; symmetry; apply repeat_cons).
    rewrite run_snoc, IH.
    destruct (Nat.ltb_spec n 1200) as [Hn|Hn].
    + unfold step, handle, tick, counting. simpl.
      destruct (Z.eqb_spec (1200 - Z.of_nat n) 0) as [E|E]; [lia|]. simpl.
      unfold timerEffect, timeIsUp. simpl.
      destruct (Nat.ltb_spec (S n) 1200) as [Hn'|Hn'].
      * destruct (Z.eqb_spec (1200 - Z.of_nat n - 1) 0) as [E'|E']; [lia|]. simpl.
        f_equal. lia.
      * destruct (Z.eqb_spec (1200 - Z.of_nat n - 1) 0) as [E'|E']; [|lia]. simpl.
        f_equal. lia.
    + destruct (Nat.ltb_spec (S n) 1200) as [Hn'|Hn']; [lia|]. reflexivity.
Qed.

End TimerFacts.

(* ===================================================================== *)
(** * Answers, tabs and the score *)
(* ===================================================================== *)

Section AnswerFacts.

Import ExamClient ExamView Tasks.

Lemma qKey_inj (q q' : Question) :
  qKey q = qKey q' -> question_number q = question_number q'.
Proof.
  unfold qKey. intros H. simpl in H. injection H as H.
  exact (inj pretty _ _ H).
Qed.

Lemma or_else_empty (s : string) : JsString.or_else s "" = s.
Proof. now destruct s. Qed.

(** X5.  [handleAnswerChange] stores the value under the question it is
    given, where the components read it back, and leaves the answer of
    every question with another number as it was. *)
Theorem setAnswer_reads_back (answers : gmap string string) (q q' : Question)
    (value : string) :
  question_number q' <> question_number q ->
  currentAnswerOf (setAnswer answers (qKey q) value) q = value
  /\ currentAnswerOf (setAnswer answers (qKey q) value) q' = currentAnswerOf answers q'
  /\ userAns (setAnswer answers (qKey q) value) q' = userAns answers q'.
Proof.
  intros Hne. unfold currentAnswerOf, userAns, setAnswer.
  rewrite lookup_insert_eq. simpl. rewrite or_else_empty.
  assert (Hk : qKey q <> qKey q') by (intros E; apply qKey_inj in E; congruence).
  rewrite !lookup_insert_ne by exact Hk. auto.
Qed.

Lemma setAnswer_reads_back_witness :
  currentAnswerOf (setAnswer {[ "q-2" := "B" ]} (qKey (mkQuestion 12)) "TRUE") (mkQuestion 12)
  = "TRUE"
  /\ currentAnswerOf (setAnswer {[ "q-2" := "B" ]} (qKey (mkQuestion 12)) "TRUE") (mkQuestion 2)
     = currentAnswerOf {[ "q-2" := "B" ]} (mkQuestion 2)
  /\ userAns (setAnswer {[ "q-2" := "B" ]} (qKey (mkQuestion 12)) "TRUE") (mkQuestion 2)
     = userAns {[ "q-2" := "B" ]} (mkQuestion 2).
Proof.
  apply (setAnswer_reads_back {[ "q-2" := "B" ]} (mkQuestion 12) (mkQuestion 2) "TRUE").
  discriminate.
Defined.

(** X6.  After a non-empty answer is stored for one of its questions, the
    tab of a task is yellow or green, never gray. *)
Theorem tab_not_gray_after_answer (task : Task) (userAnswers : gmap string string)
    (q : Question) (value : string) :
  In q (questions task) -> value <> "" ->
  dot task (setAnswer userAnswers (qKey q) value) <> Gray.
Proof.
  intros Hq Hv. unfold dot.
  destruct (isComplete task _); [discriminate|].
  assert (H : hasSome task (setAnswer userAnswers (qKey q) value) = true).
  { unfold hasSome. apply existsb_exists. exists q. split; [exact Hq|].
    unfold hasAnswer, setAnswer. rewrite lookup_insert_eq.
    destruct value; [contradiction | reflexivity]. }
  rewrite H. discriminate.
Qed.

Lemma tab_not_gray_after_answer_witness :
  dot Samples.tfTask (setAnswer ∅ (qKey (mkQuestion 7)) "NOT GIVEN") <> Gray.
Proof.
  apply (tab_not_gray_after_answer Samples.tfTask ∅ (mkQuestion 7) "NOT GIVEN").
  - simpl. auto.
  - discriminate.
Defined.

Lemma hit_hasAnswer (ua : gmap string string) (k : AnswerKey) (tIdx qIdx : nat)
    (q : Question) :
  hit ua k tIdx qIdx q = true -> hasAnswer ua q = true.
Proof.
  intros H. apply hit_answered in H. unfold answered in H. unfold hasAnswer.
  destruct (ua !! qKey q) as [s|]; [|discriminate].
  destruct s; [discriminate H | reflexivity].
Qed.

Lemma hitsQuestions_none (ua : gmap string string) (k : AnswerKey) (tIdx : nat)
    (qs : list Question) :
  existsb (hasAnswer ua) qs = false ->
  forall qIdx, hitsQuestions ua k tIdx qIdx qs = 0.
Proof.
  induction qs as [|q rest IH]; intros H qIdx; simpl; [reflexivity|].
  simpl in H. apply orb_false_iff in H. destruct H as [Hq Hrest].
  rewrite (IH Hrest).
  destruct (hit ua k tIdx qIdx q) eqn:E; [|reflexivity].
  apply hit_hasAnswer in E. congruence.
Qed.

(** X7.  When no task of the exam has an answered question, so that no
    tab is yellow, the score is 0 out of the number of questions,
    whatever the key holds. *)
Theorem no_answer_no_point (ex : Exam) (k : AnswerKey) (ua : gmap string string) :
  Forall (fun task => hasSome task ua = false) (tasks ex) ->
  calculateScore (Some ex) (key_js k) ua
  = Normal (mkScore None (Some 0) (num_questions ex)).
Proof.
  intros H. rewrite calculateScore_key. do 3 f_equal.
  generalize 0 at 1. induction H as [|task rest Ht Hrest IH]; intros tIdx; simpl.
  - reflexivity.
  - rewrite IH. now rewrite (hitsQuestions_none ua k tIdx (questions task) Ht).
Qed.

Lemma no_answer_no_point_witness :
  calculateScore (Some Samples.exam2) (key_js Samples.key2) {[ "q-9" := "paris" ]}
  = Normal (mkScore None (Some 0) (num_questions Samples.exam2)).
Proof.
  apply (no_answer_no_point Samples.exam2 Samples.key2 {[ "q-9" := "paris" ]}).
  repeat constructor.
Defined.

Lemma hitsQuestions_bound (ua : gmap string string) (k : AnswerKey) (tIdx : nat)
    (qs : list Question) :
  forall qIdx, hitsQuestions ua k tIdx qIdx qs <= length qs.
Proof.
  induction qs as [|q rest IH]; intros qIdx; simpl; [lia|].
  specialize (IH (S qIdx)). destruct (hit ua k tIdx qIdx q); lia.
Qed.

Lemma hitsTasks_bound (ua : gmap string string) (k : AnswerKey) (ts : list Task) :
  forall tIdx,
    hitsTasks ua k tIdx ts <= list_sum (map (fun t => length (questions t)) ts).
Proof.
  induction ts as [|task rest IH]; intros tIdx; simpl; [lia|].
  specialize (IH (S tIdx)).
  pose proof (hitsQuestions_bound ua k tIdx (questions task) 0). lia.
Qed.

(** X8.  For every key of the server's shape the score never exceeds the
    total: [calculateScore] returns [correct] and [total] with
    [correct <= total], and [total] is the number of questions. *)
Theorem score_within_total (ex : Exam) (k : AnswerKey) (ua : gmap string string) :
  exists c,
    calculateScore (Some ex) (key_js k) ua
    = Normal (mkScore None (Some c) (num_questions ex))
    /\ c <= num_questions ex.
Proof.
  rewrite calculateScore_key. eexists. split; [reflexivity|]. apply hitsTasks_bound.
Qed.

Lemma userAns_normalized (ua ua' : gmap string string) (q : Question) :
  normalize <$> ua !! qKey q = normalize <$> ua' !! qKey q ->
  userAns ua q = userAns ua' q.
Proof.
  unfold userAns, normalize.
  destruct (ua !! qKey q), (ua' !! qKey q); simpl; congruence.
Qed.

Lemma scoreQuestions_normalized (answers : JsVal) (ua ua' : gmap string string)
    (tIdx : nat) (qs : list Question) :
  (forall key, normalize <$> ua !! key = normalize <$> ua' !! key) ->
  forall qIdx acc,
    scoreQuestions answers ua tIdx qIdx qs acc = scoreQuestions answers ua' tIdx qIdx qs acc.
Proof.
  intros H. induction qs as [|q rest IH]; intros qIdx acc; simpl; [reflexivity|].
  unfold scoreQuestion. rewrite (userAns_normalized ua ua' q (H _)).
  destruct (correctAns answers tIdx qIdx); simpl; [apply IH | reflexivity].
Qed.

Lemma scoreTasks_normalized (answers : JsVal) (ua ua' : gmap string string)
    (ts : list Task) :
  (forall key, normalize <$> ua !! key = normalize <$> ua' !! key) ->
  forall tIdx acc,
    scoreTasks answers ua tIdx ts acc = scoreTasks answers ua' tIdx ts acc.
Proof.
  intros H. induction ts as [|t rest IH]; intros tIdx acc; simpl; [reflexivity|].
  rewrite (scoreQuestions_normalized answers ua ua' tIdx (questions t) H).
  destruct (scoreQuestions answers ua' tIdx 0 (questions t) acc); simpl;
    [apply IH | reflexivity].
Qed.

(** X9.  The outcome of [calculateScore], a score or a throw, depends on
    the submitted answers only up to case and surrounding white space:
    two submissions that agree entry by entry after trimming and
    lower-casing give the same outcome, for any exam and any key value. *)
Theorem score_up_to_case_and_blanks (exam : option Exam) (answers : JsVal)
    (ua ua' : gmap string string) :
  (forall key, normalize <$> ua !! key = normalize <$> ua' !! key) ->
  calculateScore exam answers ua = calculateScore exam answers ua'.
Proof.
  intros H. unfold calculateScore.
  destruct (negb (truthy answers)); [reflexivity|].
  destruct (get_named answers "tasks") as [ts|]; simpl; [|reflexivity].
  destruct (negb (truthy ts)); [reflexivity|].
  destruct exam as [ex|]; [|reflexivity].
  now rewrite (scoreTasks_normalized answers ua ua' (tasks ex) H).
Qed.

Lemma score_up_to_case_and_blanks_witness :
  calculateScore (Some Samples.exam2) (key_js Samples.key2) {[ "q-1" := " PARIS" ]}
  = calculateScore (Some Samples.exam2) (key_js Samples.key2) {[ "q-1" := "paris  " ]}.
Proof.
  apply (score_up_to_case_and_blanks (Some Samples.exam2) (key_js Samples.key2)
           {[ "q-1" := " PARIS" ]} {[ "q-1" := "paris  " ]}).
  intros key. destruct (decide (key = "q-1")) as [->|Hne].
  - reflexivity.
  - now rewrite !lookup_singleton_ne by congruence.
Defined.

Lemma scoreTasks_no_questions (answers : JsVal) (ua : gmap string string)
    (ts : list Task) :
  Forall (fun t => questions t = []) ts ->
  forall tIdx acc, scoreTasks answers ua tIdx ts acc = Normal acc.
Proof.
  intros H. induction H as [|t rest Ht Hrest IH]; intros tIdx acc; simpl; [reflexivity|].
  rewrite Ht. simpl. apply IH.
Qed.

(** X10.  For an exam none of whose tasks has a question,
    [calculateScore] reads no key entry: whatever value the key has, it
    returns without throwing and reports a total of 0. *)
Theorem no_questions_no_throw (ex : Exam) (answers : JsVal) (ua : gmap string string) :
  Forall (fun t => questions t = []) (tasks ex) ->
  exists r, calculateScore (Some ex) answers ua = Normal r /\ total r = 0.
Proof.
  intros H. unfold calculateScore.
  destruct (truthy answers) eqn:Ht; simpl; [|eexists; split; reflexivity].
  destruct answers; try discriminate Ht; simpl;
    try (eexists; split; reflexivity);
    match goal with
    | |- context [negb (truthy ?ts)] =>
        destruct (negb (truthy ts)); simpl;
        [eexists; split; reflexivity
        | rewrite (scoreTasks_no_questions _ ua (tasks ex) H); simpl;
          eexists; split; reflexivity]
    end.
Qed.

Lemma no_questions_no_throw_witness :
  exists r,
    calculateScore (Some (mkExam [mkTask "Short Answer" None None []]))
                   Samples.keyWithoutAnswers ∅ = Normal r
    /\ total r = 0.
Proof.
  apply (no_questions_no_throw (mkExam [mkTask "Short Answer" None None []])
           Samples.keyWithoutAnswers ∅).
  repeat constructor.
Defined.

End AnswerFacts.

(* ===================================================================== *)
(** * The renderer and the progress track *)
(* ===================================================================== *)

Section RendererFacts.

Import Renderer JsString.

Lemma eqb_ascii_lower (a b : ascii) :
  Ascii.eqb a b = true -> Ascii.eqb (lower_char a) (lower_char b) = true.
Proof. intros H. apply Ascii.eqb_eq in H. subst. apply Ascii.eqb_refl. Qed.

Lemma startsWith_toLowerCase (p s : string) :
  startsWith p s = true -> startsWith (toLowerCase p) (toLowerCase s) = true.
Proof.
  revert s. induction p as [|a p IH]; intros [|b s] H; simpl in *; try congruence.
  destruct (Ascii.eqb a b) eqn:E; [|discriminate].
  rewrite (eqb_ascii_lower a b E). now apply IH.
Qed.

(** Lower-casing keeps what a string includes, up to case. *)
Lemma includes_toLowerCase (s p : string) :
  includes s p = true -> includes (toLowerCase s) (toLowerCase p) = true.
Proof.
  induction s as [|c s IH]; simpl; intros H.
  - apply orb_true_iff in H. destruct H as [H|H]; [|discriminate].
    apply startsWith_toLowerCase in H. simpl in H. now rewrite H.
  - apply orb_true_iff in H. destruct H as [H|H].
    + apply startsWith_toLowerCase in H. simpl in H. now rewrite H.
    + rewrite (IH H). apply orb_true_r.
Qed.

(** X11.  A task whose key contains [yes_no] and whose type does not say
    multiple choice is rendered by the true/false component, and that
    component offers YES, NO and NOT GIVEN. *)
Theorem yes_no_task_gets_yes_no_buttons (task : Task) (summary_text : option string)
    (k : string) :
  task_key task = Some k ->
  includes k "yes_no" = true ->
  includes (toLowerCase (or_else (task_type task) "")) "multiple choice" = false ->
  TaskRenderer task summary_text = TrueFalseView
  /\ Tasks.options task = ["YES"; "NO"; "NOT GIVEN"].
Proof.
  intros Hk Hyes Hmc. split.
  - unfold TaskRenderer. rewrite Hmc, Hk. simpl default.
    replace (or_else k "") with k by now destruct k.
    pose proof (includes_toLowerCase k "yes_no" Hyes) as H.
    change (toLowerCase "yes_no") with "yes_no" in H.
    rewrite H. now rewrite !orb_true_r.
  - unfold Tasks.options, Tasks.isYesNo. now rewrite Hk, Hyes.
Qed.

Lemma yes_no_task_gets_yes_no_buttons_witness :
  TaskRenderer Samples.ynTask None = TrueFalseView
  /\ Tasks.options Samples.ynTask = ["YES"; "NO"; "NOT GIVEN"].
Proof.
  apply (yes_no_task_gets_yes_no_buttons Samples.ynTask None "yes_no_not_given");
    reflexivity.
Defined.

End RendererFacts.

Section ProcessStatusFacts.

Import ProcessStatus.
Local Open Scope Z_scope.

(** X12.  Along the track the completed steps come first, then the active
    one, then the idle ones; and exactly one step is in its active range
    for a progress from 0 up to but not including 100, none otherwise. *)
Theorem track_is_ordered (progress : Z) :
  Sorted Z.le (map (fun s => nodeRank (node progress s)) steps)
  /\ length (List.filter (isActive progress) steps)
     = if (0 <=? progress) && (progress <? 100) then 1%nat else 0%nat.
Proof.
  unfold steps, node, isCompleted, isActive. simpl.
  repeat match goal with
         | |- context [?a <? ?b] => destruct (Z.ltb_spec a b); try lia
         | |- context [?a <=? ?b] => destruct (Z.leb_spec a b); try lia
         end;
    simpl; (split; [repeat constructor; simpl; lia | reflexivity]).
Qed.

End ProcessStatusFacts.

(* ===================================================================== *)
(** * What the configuration controls can send *)
(* ===================================================================== *)

Section ConfigUIFacts.

Import CreateExam ExamConfigUI.
Local Open Scope Z_scope.

Lemma onEvent_offered (c : ExamConfigState) (ev : bool * ConfigEvent) :
  inSliderRange ev -> offered c -> offered (onEvent c ev).
Proof.
  destruct ev as [disabled ev]. unfold inSliderRange, onEvent, patchOf. simpl.
  intros Hr (Hp & Ht & Hv). destruct disabled; [exact (conj Hp (conj Ht Hv))|].
  destruct ev as [i|v|i].
  - destruct i as [|[|[|i]]]; simpl; unfold offered; simpl; tauto.
  - simpl. unfold offered. simpl. tauto.
  - destruct i as [|[|i]]; simpl; unfold offered; simpl; tauto.
Qed.

Lemma configure_offered (evs : list (bool * ConfigEvent)) :
  Forall inSliderRange evs -> offered (configure evs).
Proof.
  unfold configure. intros H.
  assert (G : forall c, offered c -> offered (fold_left onEvent evs c)).
  { induction H as [|ev rest Hev Hrest IH]; intros c Hc; simpl; [exact Hc|].
    apply IH. now apply onEvent_offered. }
  apply G. unfold offered, sliderMin, sliderMax. simpl. lia.
Qed.

(** X13.  Whatever cards and buttons are clicked and wherever the slider
    is moved within its range, a generation request carries a passage
    type of 1, 2 or 3, between 10 and 20 questions and 2 or 3 question
    types. *)
Theorem request_within_offered_ranges (evs : list (bool * ConfigEvent))
    (src : Source) (createSession : option string) (session_id : string)
    (req : GenerateRequest) :
  Forall inSliderRange evs ->
  handleProcess src (configure evs) createSession = Some (session_id, req) ->
  (passage_type req = 1 \/ passage_type req = 2 \/ passage_type req = 3)
  /\ 10 <= total_questions req <= 20
  /\ (num_question_types req = 2 \/ num_question_types req = 3).
Proof.
  intros Hr H. pose proof (configure_offered evs Hr) as Ho.
  unfold handleProcess in H.
  destruct (negb (bool_decide (is_Some (file src))) && negb (JsString.truthy (fileUrl src)));
    [discriminate|].
  destruct createSession as [sid|]; [|discriminate].
  injection H as _ <-. exact Ho.
Qed.

Lemma request_within_offered_ranges_witness :
  (passage_type (mkRequest 3 17 2) = 1 \/ passage_type (mkRequest 3 17 2) = 2
   \/ passage_type (mkRequest 3 17 2) = 3)
  /\ 10 <= total_questions (mkRequest 3 17 2) <= 20
  /\ (num_question_types (mkRequest 3 17 2) = 2 \/ num_question_types (mkRequest 3 17 2) = 3).
Proof.
  apply (request_within_offered_ranges
           [(false, PickPassage 2); (false, MoveSlider 17); (true, MoveSlider 12);
            (false, PickVariety 0); (false, PickPassage 7)]
           Samples.pdfSource (Some "3f2a") "3f2a" (mkRequest 3 17 2)).
  - repeat (apply Forall_cons_2; [vm_compute; try exact I; split; discriminate|]).
    apply Forall_nil_2.
  - reflexivity.
Defined.

End ConfigUIFacts.

(* ===================================================================== *)
(** * The upload control and the page *)
(* ===================================================================== *)

Section UploadFlowFacts.

Import FileUpload UploadFlow.

Lemma accept_inSync (st : State) (sel : Selection) (f : File) :
  uploadMethod st = MethodFile ->
  inSync (st, sel) ->
  inSync (fst (accept st f), fold_left receive (snd (accept st f)) sel).
Proof.
  intros Hm Hs. unfold accept.
  destruct (JsString.eqb (type f) "application/pdf") eqn:E; simpl.
  - apply eqb_true in E. unfold inSync. simpl. rewrite Hm. auto.
  - exact Hs.
Qed.

Lemma step_inSync (cs : State * Selection) (ev : bool * UiEvent) :
  inSync cs -> inSync (step cs ev).
Proof.
  destruct cs as [st sel], ev as [disabled ev]. intros Hs.
  unfold step, dispatch, isFileMode. cbn [fst snd].
  destruct ev as [ty|files|files|url|m|].
  - destruct (uploadMethod st) eqn:Hm; [|exact Hs].
    unfold handleDrag. simpl.
    destruct disabled; [exact Hs|].
    destruct Hs as (H1 & H2 & H3). simpl in *. rewrite Hm in *.
    destruct (JsString.eqb ty "dragenter" || JsString.eqb ty "dragover");
      [|destruct (JsString.eqb ty "dragleave")];
      unfold inSync; simpl; rewrite ?Hm; auto.
  - destruct (uploadMethod st) eqn:Hm; [|exact Hs].
    unfold handleDrop. destruct disabled; [exact Hs|].
    assert (Hs' : inSync (mkState false (file st) (fileUrl st) (uploadMethod st), sel)).
    { destruct Hs as (H1 & H2 & H3). unfold inSync. simpl in *. auto. }
    destruct (firstFile files) as [f|]; [|exact Hs'].
    apply accept_inSync; [exact Hm | exact Hs'].
  - destruct (uploadMethod st) eqn:Hm; [|exact Hs].
    unfold handleFileChange. destruct disabled; [exact Hs|].
    destruct (firstFile files) as [f|]; [|exact Hs].
    apply accept_inSync; [exact Hm | exact Hs].
  - destruct (uploadMethod st) eqn:Hm; [exact Hs|].
    unfold handleUrlChange. destruct disabled; [exact Hs|].
    destruct Hs as (H1 & H2 & H3). unfold inSync. simpl in *. rewrite Hm in *. auto.
  - unfold handleMethodChange. destruct disabled; [exact Hs|].
    destruct Hs as (H1 & H2 & H3). unfold inSync. simpl in *.
    destruct m; simpl; auto.
  - destruct (uploadMethod st) eqn:Hm; [|exact Hs]. simpl.
    destruct (bool_decide (is_Some (file st))); [|exact Hs].
    destruct disabled; [exact Hs|]. simpl.
    unfold inSync. simpl. rewrite Hm. auto.
Qed.

(** X14.  Through every run of drags, drops, file choices, URL edits,
    method switches and removals, the selection kept by the page mirrors
    the upload control: same method; in file mode the control's file and
    no URL, in URL mode no file and the control's URL; and the file
    chosen, if any, is a PDF. *)
Theorem page_mirrors_upload_control (evs : list (bool * UiEvent)) :
  inSync (run evs).
Proof.
  unfold run.
  induction evs as [|ev evs IH] using rev_ind.
  - unfold inSync. simpl. auto.
  - rewrite fold_left_app. simpl. now apply step_inSync.
Qed.

(** X15.  Whenever [handleProcess] gets past its guard after such a run,
    [api.createSession] is given exactly one source: a PDF file and no
    URL, or a non-empty URL and no file. *)
Theorem createSession_gets_one_source (evs : list (bool * UiEvent))
    (f : option File) (u : option string) :
  uploadArgs (snd (run evs)) = Some (f, u) ->
  (exists g, f = Some g /\ type g = "application/pdf" /\ u = None)
  \/ (f = None /\ exists url, u = Some url /\ url <> "").
Proof.
  pose proof (page_mirrors_upload_control evs) as (Hm & Hmode & Hpdf).
  destruct (run evs) as [st sel]. simpl in *. unfold uploadArgs. rewrite Hm.
  destruct (uploadMethod st); destruct Hmode as [Hf Hu]; rewrite Hf, Hu.
  - destruct (file st) as [g|] eqn:Eg; simpl; [|discriminate].
    intros [= <- <-]. left. exists g. auto.
  - simpl. destruct (fileUrl st) as [|c url] eqn:Eu; simpl; [discriminate|].
    intros [= <- <-]. right. split; [reflexivity|]. eexists; split; [reflexivity|discriminate].
Qed.

Lemma createSession_gets_one_source_witness :
  (exists g, Some Samples.pdfFile = Some g /\ type g = "application/pdf"
             /\ (None : option string) = None)
  \/ (Some Samples.pdfFile = None /\ exists url, (None : option string) = Some url /\ url <> "").
Proof.
  apply (createSession_gets_one_source
           [(false, SwitchMethod MethodUrl); (false, TypeUrl "https://example.org/a.pdf");
            (false, SwitchMethod MethodFile); (false, DropFiles (Some [Samples.wordFile]));
            (false, ChooseFiles (Some [Samples.pdfFile]))]
           (Some Samples.pdfFile) None).
  reflexivity.
Defined.

(** X16.  While the page is processing, the upload control is inert: no
    event changes its state or the selection of the page. *)
Theorem disabled_upload_is_inert (cs : State * Selection) (ev : UiEvent) :
  step cs (true, ev) = cs.
Proof.
  destruct cs as [st sel]. unfold step, dispatch. cbn [fst snd].
  destruct ev; simpl; destruct (isFileMode st); simpl; try reflexivity;
    rewrite ?andb_false_r; reflexivity.
Qed.

End UploadFlowFacts.

(* ===================================================================== *)
(** * Deleting sessions *)
(* ===================================================================== *)

Section DeleteFacts.

Import SessionList DeleteFlow.

Lemma run_inTurn_cons (sessions : list SessionInfo) (id : string) (ids : list string) :
  run sessions (inTurn (id :: ids))
  = run (filter (fun s => session_id s <> id) sessions) (inTurn ids).
Proof. reflexivity. Qed.

Lemma run_inTurn (ids : list string) :
  forall sessions,
    run sessions (inTurn ids)
    = mkList (filter (fun s => session_id s ∉ ids) sessions) [].
Proof.
  induction ids as [|id ids IH]; intros sessions.
  - unfold run, inTurn. simpl. f_equal.
    induction sessions as [|s l IHl]; [reflexivity|].
    rewrite filter_cons, decide_True by apply not_elem_of_nil. now rewrite <- IHl.
  - rewrite run_inTurn_cons, IH. f_equal.
    rewrite list_filter_filter. apply list_filter_iff.
    intros s. rewrite not_elem_of_cons. tauto.
Qed.

(** X17.  Deletes made in turn, each resolved before the next click,
    leave exactly the sessions whose id is none of those deleted, so two
    of them give the same list in either order.  Two deletes that
    overlap, both started on the same render, do not add up: the list set
    by the one that resolves last is the filter of the list it closed
    over, and the session the other one removed is shown again. *)
Theorem deletes_in_turn_or_overlapping (sessions : list SessionInfo)
    (ids : list string) (a b : string) :
  run sessions (inTurn ids)
  = mkList (filter (fun s => session_id s ∉ ids) sessions) []
  /\ shown (run sessions (inTurn [a; b])) = shown (run sessions (inTurn [b; a]))
  /\ shown (run sessions [ClickDelete a true; ClickDelete b true;
                          Settle 0 true; Settle 0 true])
     = filter (fun s => session_id s <> b) sessions
  /\ shown (run sessions [ClickDelete a true; ClickDelete b true;
                          Settle 1 true; Settle 0 true])
     = filter (fun s => session_id s <> a) sessions.
Proof.
  split; [apply run_inTurn|]. split; [|split; reflexivity].
  rewrite !run_inTurn. simpl. apply list_filter_iff.
  intros s. rewrite !not_elem_of_cons. tauto.
Qed.

End DeleteFacts.

(* ===================================================================== *)
(** * The marks of the components and the score *)
(* ===================================================================== *)

Section MarkFacts.

Import ExamClient ExamView Tasks.

Lemma correctOf_typed (es : TaskKey) (index : nat) :
  correctOf (JArr (map entry_js es)) index
  = Normal (match es !! index with
            | Some (Some e) =>
                match answer e with Some a => JStr a | None => JUndef end
            | _ => JUndef
            end).
Proof.
  unfold correctOf. cbn [nullish get_index Js.bind]. rewrite nth_map_lookup.
  destruct (es !! index) as [[e|]|]; cbn; try reflexivity.
  now rewrite lookup_answer_field.
Qed.

(** X18.  For a task key of the server's shape no component throws, and a
    question is marked correct only after submission and only when its
    key entry is there: then by exact equality in the true/false,
    multiple-choice and matching-headings components and by equality up
    to case and surrounding blanks in the short-answer and
    sentence-completion components. *)
Theorem isCorrect_typed_key (c : Component) (isSubmitted : bool)
    (answers : gmap string string) (es : TaskKey) (q : Question) (index : nat) :
  isCorrect c isSubmitted answers (JArr (map entry_js es)) q index
  = Normal (isSubmitted &&
            match es !! index with
            | Some (Some e) =>
                match answer e with
                | Some a =>
                    match c with
                    | ShortAnswerTask | SentenceCompletionTask =>
                        bool_decide (normalize (currentAnswerOf answers q) = normalize a)
                    | TrueFalseTask | MultipleChoiceTask | MatchingHeadingsTask =>
                        bool_decide (currentAnswerOf answers q = a)
                    end
                | None => false
                end
            | _ => false
            end).
Proof.
  unfold isCorrect. rewrite correctOf_typed. cbn [Js.bind].
  destruct isSubmitted; [|reflexivity]. cbn [andb].
  unfold normalize.
  destruct (es !! index) as [[e|]|]; [destruct (answer e) as [a|]| |];
    destruct c; cbn; try reflexivity; now rewrite !trim_toLowerCase.
Qed.

Lemma correctOf_total (correctAnswers : JsVal) (index : nat) :
  exists v, correctOf correctAnswers index = Normal v.
Proof.
  unfold correctOf.
  destruct correctAnswers; cbn; try (eexists; reflexivity);
    match goal with
    | |- context [nullish ?e] =>
        destruct e; cbn; eexists; reflexivity
    end.
Qed.

(** X19.  Before submission no component marks a question correct or
    throws, whatever value the key has; after submission the components
    that compare exactly still never throw, while the components that
    lower-case the key entry throw on an entry that is neither absent nor
    a string. *)
Theorem isCorrect_throws_only_on_odd_entry (c : Component)
    (answers : gmap string string) (correctAnswers : JsVal) (q : Question)
    (index : nat) (v : JsVal) :
  correctOf correctAnswers index = Normal v ->
  nullish v = false ->
  (forall s, v <> JStr s) ->
  isCorrect c false answers correctAnswers q index = Normal false
  /\ isCorrect c true answers correctAnswers q index
     = match c with
       | ShortAnswerTask | SentenceCompletionTask => Throw
       | TrueFalseTask | MultipleChoiceTask | MatchingHeadingsTask => Normal false
       end.
Proof.
  intros Hv Hn Hs. unfold isCorrect. rewrite Hv. cbn [Js.bind]. split; [reflexivity|].
  destruct c; cbn [matches exactMatch looseMatch]; rewrite ?Hn;
    destruct v; try discriminate Hn; try reflexivity;
    exfalso; eapply Hs; reflexivity.
Qed.

Lemma isCorrect_throws_only_on_odd_entry_witness :
  isCorrect ShortAnswerTask false {[ "q-3" := "7" ]}
            (JArr [JObj [("answer", JNum 7)]]) (mkQuestion 3) 0 = Normal false
  /\ isCorrect ShortAnswerTask true {[ "q-3" := "7" ]}
               (JArr [JObj [("answer", JNum 7)]]) (mkQuestion 3) 0 = Throw.
Proof.
  apply (isCorrect_throws_only_on_odd_entry ShortAnswerTask {[ "q-3" := "7" ]}
           (JArr [JObj [("answer", JNum 7)]]) (mkQuestion 3) 0 (JNum 7)).
  - reflexivity.
  - reflexivity.
  - discriminate.
Defined.

(** The prop a task component receives, for a key of the server's shape. *)
Lemma correctAnswersProp_key (k : AnswerKey) (tIdx : nat) :
  correctAnswersProp (key_js k) tIdx
  = match k !! tIdx with
    | Some (Some es) => JArr (map entry_js es)
    | _ => JUndef
    end.
Proof.
  unfold correctAnswersProp, key_js.
  unfold opt_named at 2. cbn [nullish get_named lookup_prop].
  rewrite eqb_refl. unfold opt_index. cbn [nullish get_index].
  rewrite nth_map_lookup.
  destruct (k !! tIdx) as [[es|]|]; cbn; reflexivity.
Qed.

Lemma isCorrect_undefined (c : Component) (answers : gmap string string)
    (q : Question) (index : nat) :
  isCorrect c true answers JUndef q index = Normal false.
Proof. destruct c; reflexivity. Qed.

Lemma shown_correct_counted (c : Component) (k : AnswerKey) (ua : gmap string string)
    (tIdx qIdx : nat) (q : Question) :
  isCorrect c true ua (correctAnswersProp (key_js k) tIdx) q qIdx = Normal true ->
  answered ua q = true ->
  hit ua k tIdx qIdx q = true.
Proof.
  rewrite correctAnswersProp_key. unfold answered.
  destruct (ua !! qKey q) as [s|] eqn:Hs; [|discriminate]. intros Hc Ha.
  assert (Hcur : currentAnswerOf ua q = s).
  { unfold currentAnswerOf. rewrite Hs. simpl. now destruct s. }
  destruct (k !! tIdx) as [[es|]|] eqn:Hk;
    try (rewrite isCorrect_undefined in Hc; discriminate).
  rewrite isCorrect_typed_key in Hc. cbn [andb] in Hc. rewrite Hcur in Hc.
  destruct (es !! qIdx) as [[e|]|] eqn:He; try discriminate.
  destruct (answer e) as [a|] eqn:Hans; try discriminate.
  apply (hit_match ua k tIdx qIdx q s a).
  - exact Hs.
  - unfold key_answer. now rewrite Hk, He.
  - intros E. rewrite E in Ha. discriminate.
  - injection Hc as Hc. destruct c; apply bool_decide_eq_true in Hc;
      solve [exact Hc | now rewrite Hc].
Qed.

(** X20.  The marks and the score agree in this direction: if every
    question of the exam is answered and is marked correct by the
    component of its task, whichever of the five components that is, then
    [calculateScore] reports every question correct. *)
Theorem all_marked_correct_full_score (ex : Exam) (k : AnswerKey)
    (ua : gmap string string) (component : nat -> Component) :
  (forall tIdx task qIdx q,
      tasks ex !! tIdx = Some task ->
      questions task !! qIdx = Some q ->
      isCorrect (component tIdx) true ua (correctAnswersProp (key_js k) tIdx) q qIdx
      = Normal true
      /\ answered ua q = true) ->
  calculateScore (Some ex) (key_js k) ua
  = Normal (mkScore None (Some (num_questions ex)) (num_questions ex)).
Proof.
  intros H. rewrite calculateScore_key.
  rewrite (hitsTasks_all ua k (tasks ex) 0); [reflexivity|].
  intros i task j q Hi Hj. simpl.
  destruct (H i task j q Hi Hj) as [Hc Ha].
  now apply (shown_correct_counted (component i)).
Qed.

Lemma all_marked_correct_full_score_witness :
  calculateScore (Some Samples.exam1)
                 (key_js [Some [Some (mkAnswerEntry (Some "TRUE") None)]])
                 {[ "q-1" := "TRUE" ]}
  = Normal (mkScore None (Some (num_questions Samples.exam1)) (num_questions Samples.exam1)).
Proof.
  apply (all_marked_correct_full_score Samples.exam1
           [Some [Some (mkAnswerEntry (Some "TRUE") None)]]
           {[ "q-1" := "TRUE" ]} (fun _ => TrueFalseTask)).
  intros tIdx task qIdx q Ht Hq.
  destruct tIdx as [|tIdx]; simpl in Ht; [|destruct tIdx; discriminate].
  injection Ht as <-.
  destruct qIdx as [|qIdx]; simpl in Hq; [|destruct qIdx; discriminate].
  injection Hq as <-. split; reflexivity.
Defined.

End MarkFacts.

(* ===================================================================== *)
(** * More on polling *)
(* ===================================================================== *)

Section PollOrderFacts.

Import CreateExam PollOrder.
Local Open Scope Z_scope.

Lemma pollStatus_inFlight (st : PollState) (r : option ExamStatus) :
  inFlight r ->
  pollInterval (pollStatus st r) = pollInterval st
  /\ intervalRunning (pollStatus st r) = intervalRunning st.
Proof.
  destruct r as [s|]; simpl; [|auto]. unfold terminalStatus. intros H.
  apply orb_false_iff in H. destruct H as [Hf Hc]. now rewrite Hf, Hc.
Qed.

Lemma pollStatus_terminal (st : PollState) (s : ExamStatus) :
  pollInterval st = true -> terminalStatus s = true ->
  intervalRunning (pollStatus st (Some s)) = false.
Proof.
  unfold terminalStatus, pollStatus, clearIfSet. intros Hp H.
  destruct (JsString.eqb (status s) "failed"); simpl; [now rewrite Hp|].
  simpl in H. rewrite H. simpl. now rewrite Hp.
Qed.

Lemma pollStatus_stays_cleared (st : PollState) (r : option ExamStatus) :
  pollInterval st = true -> intervalRunning st = false ->
  pollInterval (pollStatus st r) = true /\ intervalRunning (pollStatus st r) = false.
Proof.
  intros Hp Hr. destruct r as [s|]; [|auto]. unfold pollStatus, clearIfSet.
  destruct (JsString.eqb (status s) "failed"); simpl; [now rewrite Hp|].
  destruct (JsString.eqb (status s) "completed"); simpl; [now rewrite Hp | auto].
Qed.

Lemma pollStatus_pollInterval (st : PollState) (r : option ExamStatus) :
  pollInterval (pollStatus st r) = pollInterval st.
Proof.
  destruct r as [s|]; [|reflexivity]. unfold pollStatus.
  destruct (JsString.eqb (status s) "failed"); [reflexivity|].
  destruct (JsString.eqb (status s) "completed"); reflexivity.
Qed.

Lemma flight_pollInterval (evs : list PollFlow.NetEvent) :
  forall f, pollInterval (PollFlow.page f) = true ->
            pollInterval (PollFlow.page (PollFlow.run f evs)) = true.
Proof.
  unfold PollFlow.run.
  induction evs as [|ev evs IH]; intros f Hf; simpl; [exact Hf|].
  apply IH. destruct ev as [|r]; simpl.
  - now destruct (intervalRunning (PollFlow.page f)).
  - destruct (PollFlow.unanswered f); simpl; [exact Hf|].
    now rewrite pollStatus_pollInterval.
Qed.

Lemma flight_stays_cleared (evs : list PollFlow.NetEvent) :
  forall f,
    pollInterval (PollFlow.page f) = true ->
    intervalRunning (PollFlow.page f) = false ->
    PollFlow.issued (PollFlow.run f evs) = PollFlow.issued f
    /\ intervalRunning (PollFlow.page (PollFlow.run f evs)) = false.
Proof.
  unfold PollFlow.run.
  induction evs as [|ev evs IH]; intros f Hp Hr; simpl; [auto|].
  destruct ev as [|r]; simpl.
  - rewrite Hr. now apply IH.
  - destruct (PollFlow.unanswered f) as [|n] eqn:E; [now apply IH|].
    destruct (pollStatus_stays_cleared (PollFlow.page f) r Hp Hr) as [Hp' Hr'].
    apply (IH (PollFlow.mkFlight (pollStatus (PollFlow.page f) r) n (PollFlow.issued f)));
      assumption.
Qed.

(** X21.  The interval does not wait for answers, so several requests can
    be out at once.  Once the answer to one of them observes [failed] or
    [completed], the interval is cleared for good: however the timer and
    the answers still out go on, no further request is issued. *)
Theorem no_request_after_terminal_answer (r0 : option ExamStatus)
    (before : list PollFlow.NetEvent) (s : ExamStatus)
    (after : list PollFlow.NetEvent) :
  PollFlow.unanswered (PollFlow.run (PollFlow.start r0) before) <> 0%nat ->
  terminalStatus s = true ->
  PollFlow.issued
    (PollFlow.run (PollFlow.step (PollFlow.run (PollFlow.start r0) before)
                                 (PollFlow.AnswerArrives (Some s))) after)
  = PollFlow.issued (PollFlow.run (PollFlow.start r0) before)
  /\ intervalRunning
       (PollFlow.page
          (PollFlow.run (PollFlow.step (PollFlow.run (PollFlow.start r0) before)
                                       (PollFlow.AnswerArrives (Some s))) after))
     = false.
Proof.
  intros Hout Hs.
  assert (Hp : pollInterval (PollFlow.page (PollFlow.run (PollFlow.start r0) before)) = true).
  { apply flight_pollInterval. reflexivity. }
  set (f := PollFlow.run (PollFlow.start r0) before) in *.
  destruct (PollFlow.unanswered f) as [|n] eqn:E; [contradiction|].
  pose proof (pollStatus_terminal (PollFlow.page f) s Hp Hs) as Hstop.
  pose proof (pollStatus_pollInterval (PollFlow.page f) (Some s)) as Hkeep.
  assert (Hstep : PollFlow.step f (PollFlow.AnswerArrives (Some s))
                  = PollFlow.mkFlight (pollStatus (PollFlow.page f) (Some s)) n
                                      (PollFlow.issued f)).
  { unfold PollFlow.step. now rewrite E. }
  rewrite Hstep.
  apply (flight_stays_cleared after
           (PollFlow.mkFlight (pollStatus (PollFlow.page f) (Some s)) n (PollFlow.issued f))).
  - cbn [PollFlow.page]. rewrite Hkeep. exact Hp.
  - exact Hstop.
Qed.

Lemma no_request_after_terminal_answer_witness :
  PollFlow.issued
    (PollFlow.run
       (PollFlow.step
          (PollFlow.run (PollFlow.start (Some Samples.generatingAt70))
                        [PollFlow.TimerFires; PollFlow.TimerFires])
          (PollFlow.AnswerArrives (Some Samples.failedAt60)))
       [PollFlow.TimerFires; PollFlow.AnswerArrives (Some Samples.generatingAt70);
        PollFlow.TimerFires])
  = 3%nat.
Proof.
  apply (no_request_after_terminal_answer (Some Samples.generatingAt70)
           [PollFlow.TimerFires; PollFlow.TimerFires] Samples.failedAt60
           [PollFlow.TimerFires; PollFlow.AnswerArrives (Some Samples.generatingAt70);
            PollFlow.TimerFires]).
  - discriminate.
  - reflexivity.
Defined.





End PollOrderFacts.

(* ===================================================================== *)
(** * The correctness shown by every component *)
(* ===================================================================== *)

Section EveryComponentFacts.

Import Tasks QuestionMarks.

Lemma get_named_safe (v : JsVal) (name : string) :
  nullish v = false -> get_named v name = Normal (ExamView.opt_named v name).
Proof.
  intros H. unfold ExamView.opt_named. rewrite H.
  destruct v; try discriminate H; reflexivity.
Qed.

(** [find] returns the first entry with the number. *)
Lemma find_question_first (qNum : N) (items : list JsVal) (e : JsVal) :
  firstWithQuestion qNum items e -> find_question qNum items = Normal e.
Proof.
  intros (pre & post & -> & Hpre & Hn & Hq).
  induction Hpre as [|a pre [Ha Hqa] Hrest IH]; cbn [app find_question].
  - rewrite (get_named_safe e "question" Hn). cbn [Js.bind]. now rewrite Hq.
  - rewrite (get_named_safe a "question" Ha). cbn [Js.bind]. now rewrite Hqa.
Qed.

Lemma trimLowerMatch_string (cur k : string) :
  trimLowerMatch cur (JStr k)
  = Normal (bool_decide (ExamClient.normalize cur = ExamClient.normalize k)).
Proof. reflexivity. Qed.

(** C5 (as amended).  After submission, for a stored answer-key entry that
    holds a string: in short-answer and sentence-completion tasks (the
    entry at the question's index) and in summary-completion and
    matching-features tasks (the first entry with the question's number)
    the correctness shown is whether the submitted answer equals the
    entry, compared case-insensitively with surrounding white space
    trimmed on both sides; in true/false, multiple-choice and
    matching-headings tasks it is whether the submitted answer is exactly
    the entry; in matching-information tasks it is whether the two are
    equal after upper-casing both, nothing trimmed, the question's
    [correct_paragraph], or else the empty string, standing in for an
    empty entry. *)
Theorem shownCorrect_by_component (v : AnyComponent) (answers : gmap string string)
    (items : list JsVal) (task : Task) (q : Question) (index : nat)
    (correct_paragraph : option string) (props : list (string * JsVal)) (k : string) :
  entryFor v q index items (JObj props) ->
  lookup_prop "answer" props = JStr k ->
  shownCorrect v true answers (JArr items) task q index correct_paragraph
  = Normal
      (match v with
       | Indexed ShortAnswerTask | Indexed SentenceCompletionTask
       | SummaryCompletionTask | MatchingFeaturesTask =>
           bool_decide (ExamClient.normalize (currentAnswerOf answers q)
                        = ExamClient.normalize k)
       | Indexed TrueFalseTask | Indexed MultipleChoiceTask
       | Indexed MatchingHeadingsTask =>
           bool_decide (currentAnswerOf answers q = k)
       | MatchingInformationTask =>
           bool_decide (toUpperCase (currentAnswerOf answers q)
                        = toUpperCase (if JsString.truthy k then k
                                       else default "" correct_paragraph))
       end).
Proof.
  intros He Hk. destruct v as [c| | |]; cbn [shownCorrect entryFor] in *.
  - rewrite (isCorrect_by_component c answers items q index k props He Hk).
    destruct c; reflexivity.
  - unfold summaryCompletionCorrect. cbn [summaryData].
    rewrite (find_question_first _ _ _ He). cbn [Js.bind].
    unfold ExamView.opt_named. cbn [nullish get_named]. rewrite Hk.
    apply trimLowerMatch_string.
  - unfold matchingFeaturesCorrect. cbn [findOptional].
    rewrite (find_question_first _ _ _ He). cbn [Js.bind].
    unfold ExamView.opt_named. cbn [nullish get_named]. rewrite Hk.
    apply trimLowerMatch_string.
  - unfold matchingInformationCorrect.
    rewrite (correctOf_entry items index k props He Hk). cbn [Js.bind].
    unfold or_value. cbn [truthy].
    destruct (JsString.truthy k) eqn:Et; cbn [truthy]; [now rewrite Et|].
    destruct correct_paragraph as [p|]; cbn [truthy default].
    + destruct (JsString.truthy p) eqn:Ep; cbn [call_toUpperCase Js.bind]; [reflexivity|].
      apply truthy_false in Ep. now subst p.
    + reflexivity.
Qed.

Lemma numberedKey_entry :
  entryFor MatchingFeaturesTask (mkQuestion 7) 1 numberedKey
           (JObj [("question", JNum 7); ("answer", JStr "B")]).
Proof.
  exists [JObj [("question", JNum 6); ("answer", JStr "D")]], [].
  split; [reflexivity|]. split; [|split; reflexivity].
  apply Forall_cons_2; [split; reflexivity | apply Forall_nil_2].
Qed.

Lemma shownCorrect_by_component_witness :
  shownCorrect MatchingFeaturesTask true {[ "q-7" := " b " ]} (JArr numberedKey)
               Samples.tfTask (mkQuestion 7) 1 None
  = Normal true.
Proof.
  exact (shownCorrect_by_component MatchingFeaturesTask {[ "q-7" := " b " ]} numberedKey
           Samples.tfTask (mkQuestion 7) 1 None
           [("question", JNum 7); ("answer", JStr "B")] "B"
           numberedKey_entry eq_refl).
Defined.

(** C5 as stated fails in two ways.  The true/false component compares
    exactly: the answer [TRUE] equals the key entry [true] after trimming
    and lower-casing, yet the question is shown incorrect.  The
    matching-information component does not trim: the answer [" b"]
    equals the key entry [B] after trimming and lower-casing, yet the
    question is shown incorrect. *)
Lemma not_every_component_normalizes :
  (ExamClient.normalize (currentAnswerOf {[ "q-6" := "TRUE" ]} (mkQuestion 6))
   = ExamClient.normalize "true"
   /\ shownCorrect (Indexed TrueFalseTask) true {[ "q-6" := "TRUE" ]}
                   Samples.lowerCaseKey Samples.tfTask (mkQuestion 6) 0 None
      = Normal false)
  /\ (ExamClient.normalize (currentAnswerOf {[ "q-7" := " b" ]} (mkQuestion 7))
      = ExamClient.normalize "B"
      /\ shownCorrect MatchingInformationTask true {[ "q-7" := " b" ]}
                      (JArr numberedKey) Samples.tfTask (mkQuestion 7) 1 None
         = Normal false).
Proof. repeat split. Qed.

(** Without a key entry and without a [correct_paragraph], the
    matching-information component shows a question that was left blank
    as correct. *)
Lemma matchingInformation_blank_without_entry (q : Question) (index : nat) :
  shownCorrect MatchingInformationTask true ∅ JUndef Samples.tfTask q index None
  = Normal true.
Proof. reflexivity. Qed.

End EveryComponentFacts.
